(** * Fastino RTIO driver: voltage codec, CIC staging and register encoding

    A shallow embedding of [artiq/coredevice/fastino.py].  Kernel methods that
    talk to the RTIO bus become computations in a small state-and-exception
    monad whose state is the RTIO timeline (cursor plus the events submitted so
    far); [@portable] helpers that only compute become functions into
    [result].  Integers are [Z]; where a value of the source can leave the
    [int32] range (the voltage conversion, the packing shift) the wrap-around
    is written out with [Int32.wrap].  The arithmetic of [stage_cic] runs
    behind its range check and is written on [Z] as it stands: lemma
    [stage_cic_fits_int32] shows that none of its values leaves [int32]. *)

From Stdlib Require Import ZArith Lia String PrimInt63 PrimFloat FloatOps SpecFloat.
From Stdlib Require Import Znumtheory Zpow_facts.
From Equations Require Import Equations.
From stdpp Require Import base list.

Local Open Scope Z_scope.

(** ** Fixed-width integers *)

Module Int32.

Definition modulus : Z := 2 ^ 32.
Definition min_signed : Z := - 2 ^ 31.
Definition max_signed : Z := 2 ^ 31 - 1.

(** Two's-complement reduction to the signed 32-bit range. *)
Definition wrap (x : Z) : Z := (x + 2 ^ 31) mod modulus - 2 ^ 31.

Definition in_range (x : Z) : Prop := min_signed <= x <= max_signed.

Definition add (x y : Z) : Z := wrap (x + y).
Definition shl (x n : Z) : Z := wrap (Z.shiftl x n).

End Int32.

Module Int64.

Definition wrap (x : Z) : Z := (x + 2 ^ 63) mod 2 ^ 64 - 2 ^ 63.

End Int64.

(** ** Exceptions and fallible computations *)

Inductive exn : Type :=
| ValueError (msg : string)
| IndexError (msg : string)
| OverflowError (msg : string)
| AssertionError
| NotImplementedError.

Inductive result (A : Type) : Type :=
| Ok (x : A)
| Raise (e : exn).
Arguments Ok {A} x.
Arguments Raise {A} e.

#[global] Instance result_ret : MRet result := λ A x, Ok x.
#[global] Instance result_bind : MBind result := λ A B f m,
  match m with
  | Ok x => f x
  | Raise e => Raise e
  end.

Definition is_Ok {A} (r : result A) : Prop :=
  match r with Ok _ => True | Raise _ => False end.

(** ** The RTIO timeline *)

Inductive rtio_event : Type :=
| Output (t : Z) (target : Z) (data : Z)
| OutputWide (t : Z) (target : Z) (data : list Z).

Record rtio : Type := Rtio {
  now_mu : Z;
  events : list rtio_event
}.

(** A kernel computation threads the timeline and may raise; the timeline is
    returned in both cases, so events submitted before an exception stay
    submitted. *)
Definition kernel (A : Type) : Type := rtio → result A * rtio.

#[global] Instance kernel_ret : MRet kernel := λ A x st, (Ok x, st).
#[global] Instance kernel_bind : MBind kernel := λ A B f m st,
  match m st with
  | (Ok x, st') => f x st'
  | (Raise e, st') => (Raise e, st')
  end.

Definition raise {A} (e : exn) : kernel A := λ st, (Raise e, st).

(** Run a pure fallible computation inside a kernel. *)
Definition lift {A} (r : result A) : kernel A := λ st, (r, st).

Definition emit (ev : rtio_event) (st : rtio) : rtio :=
  {| now_mu := now_mu st; events := events st ++ [ev] |}.

(** Modelled from the spec: [rtio_output] of [artiq.coredevice.rtio], the
    transport's narrow write (section 6, [write_narrow]): one register word is
    submitted at the current schedule position. *)
Definition rtio_output (target data : Z) : kernel () :=
  λ st, (Ok (), emit (Output (now_mu st) target data) st).

(** Modelled from the spec: [rtio_output_wide] of [artiq.coredevice.rtio], the
    transport's wide write (section 6, [write_wide]): the given words are
    submitted as one burst at the current schedule position. *)
Definition rtio_output_wide (target : Z) (data : list Z) : kernel () :=
  λ st, (Ok (), emit (OutputWide (now_mu st) target data) st).

(** Modelled from the spec: the [delay_mu] builtin (section 6, [delay]): the
    schedule position advances and nothing is written. *)
Definition delay_mu (dt : Z) : kernel () :=
  λ st, (Ok (), {| now_mu := Int64.wrap (now_mu st + dt); events := events st |}).

(** ** Python primitives used by the driver *)

Module Py.

(** [l[i]] *)
Definition getitem {A} (l : list A) (i : nat) : result A :=
  match l !! i with
  | Some x => Ok x
  | None => Raise (IndexError "list index out of range")
  end.

(** [l[i] = x] *)
Definition setitem {A} (l : list A) (i : nat) (x : A) : result (list A) :=
  if decide (i < length l)%nat then Ok (<[i:=x]> l)
  else Raise (IndexError "list assignment index out of range").

(** [x << n] on Python integers. *)
Definition lshift (x n : Z) : result Z :=
  if n <? 0 then Raise (ValueError "negative shift count")
  else Ok (Z.shiftl x n).

(** The integer nearest to [m * 2^e], a tie going to the even neighbour. *)
Definition round_half_even (m : positive) (e : Z) : Z :=
  if 0 <=? e then Z.pos m * 2 ^ e
  else
    let d := 2 ^ (- e) in
    let q := Z.pos m / d in
    let r := Z.pos m mod d in
    match 2 * r ?= d with
    | Lt => q
    | Gt => q + 1
    | Eq => if Z.even q then q else q + 1
    end.

(** [round(x)] for a float [x]: an integer, ties to even. *)
Definition round (x : float) : result Z :=
  match Prim2SF x with
  | S754_zero _ => Ok 0
  | S754_infinity _ =>
      Raise (OverflowError "cannot convert float infinity to integer")
  | S754_nan => Raise (ValueError "cannot convert float NaN to integer")
  | S754_finite s m e =>
      let n := round_half_even m e in
      Ok (if s then - n else n)
  end.

(** [int32(n)] *)
Definition int32 (n : Z) : Z := Int32.wrap n.

(** [int32(b)] for a bool. *)
Definition int32_of_bool (b : bool) : Z := if b then 1 else 0.

(** [for x in xs: acc = body(acc, x)] for a body that may raise. *)
Fixpoint for_in {A S} (xs : list A) (body : S → A → result S) (acc : S)
  : result S :=
  match xs with
  | [] => Ok acc
  | x :: xs' => acc' ← body acc x; for_in xs' body acc'
  end.

(** [range(n)] *)
Definition range (n : nat) : list nat := seq 0 n.

End Py.

(** [artiq.language.units.ns], the double nearest to 1e-9. *)
Definition ns : float := 0x1.12e0be826d695p-30%float.

(** ** The driver *)

Record Fastino : Type := {
  channel : Z;
  width : Z;
  t_frame : Z
}.

(** [Fastino.__init__]; [ref_period] stands for [self.core.ref_period] of the
    core device obtained from the device manager. *)
Definition __init__ (ref_period : float) (channel log2_width : Z)
  : result Fastino :=
  let ch := channel ≪ 8 in
  w ← Py.lshift 1 log2_width;
  if PrimFloat.eqb ref_period (1 * ns)%float
  then Ok {| channel := ch; width := w; t_frame := Int64.wrap (14 * 7 * 4) |}
  else Raise AssertionError.

(** [Fastino.get_rtio_channels] (the keyword arguments are ignored). *)
Definition get_rtio_channels (channel : Z) : list (Z * option string) :=
  [(channel, None)].

(** The interpolator order used by [stage_cic]. *)
Definition order : Z := 3.

(** [while rate_mantissa > 1 << 6: rate_exponent += 1; rate_mantissa >>= 1] *)
Equations? rate_loop (rate_mantissa rate_exponent : Z) : Z * Z
  by wf (Z.to_nat rate_mantissa) lt :=
  rate_loop rate_mantissa rate_exponent with Z_gt_dec rate_mantissa (1 ≪ 6) => {
    | left _ => rate_loop (rate_mantissa ≫ 1) (rate_exponent + 1);
    | right _ => (rate_mantissa, rate_exponent) }.
Proof.
  change (1 ≪ 6) with 64 in *.
  rewrite Z.shiftr_div_pow2 by lia. change (2 ^ 1) with 2.
  assert (0 <= rate_mantissa / 2 < rate_mantissa)
    by (split; [apply Z.div_pos | apply Z.div_lt]; lia).
  lia.
Qed.

(** [while gain > 1 << gain_exponent: gain_exponent += 1] *)
Equations? gain_loop (gain gain_exponent : Z) : Z
  by wf (Z.to_nat (gain - gain_exponent)) lt :=
  gain_loop gain gain_exponent with Z_gt_dec gain (1 ≪ gain_exponent) => {
    | left _ => gain_loop gain (gain_exponent + 1);
    | right _ => gain_exponent }.
Proof.
  assert (gain_exponent <= 1 ≪ gain_exponent); [|lia].
  destruct (Z_lt_le_dec gain_exponent 0) as [Hneg|Hpos].
  - pose proof (proj2 (Z.shiftl_nonneg 1 gain_exponent)). lia.
  - rewrite Z.shiftl_1_l. pose proof (Z.pow_gt_lin_r 2 gain_exponent). lia.
Qed.

Section Methods.

Context (self : Fastino).

(** [Fastino.write] *)
Definition write (addr data : Z) : kernel () :=
  rtio_output (Z.lor (channel self) addr) data.

(** [Fastino.read] *)
Definition read (addr : Z) : kernel Z :=
  raise NotImplementedError.

(** [Fastino.set_dac_mu] *)
Definition set_dac_mu (dac data : Z) : kernel () :=
  write dac data.

(** [Fastino.set_group_mu] *)
Definition set_group_mu (dac : Z) (data : list Z) : kernel () :=
  if negb (Z.land dac (width self - 1) =? 0)
  then raise (ValueError "Group index LSBs must be zero")
  else rtio_output_wide (Z.lor (channel self) dac) data.

(** [Fastino.voltage_to_mu] *)
Definition voltage_to_mu (voltage : float) : result Z :=
  r ← Py.round ((of_uint63 0x8000 / 10) * voltage)%float;
  let data := Int32.add (Py.int32 r) (Py.int32 0x8000) in
  if (data <? 0) || (data >? 0xffff)
  then Raise (ValueError "DAC voltage out of bounds")
  else Ok data.

(** The body of the loop of [Fastino.voltage_group_to_mu], at index [i]. *)
Definition voltage_group_step (voltage : list float) (data : list Z) (i : nat)
  : result (list Z) :=
  x ← Py.getitem voltage i;
  v ← voltage_to_mu x;
  v ← (if negb (Z.land (Z.of_nat i) 1 =? 0)
       then d ← Py.getitem data (i / 2)%nat; Ok (Z.lor d (Int32.shl v 16))
       else Ok v);
  Py.setitem data (i / 2)%nat (Py.int32 v).

(** [Fastino.voltage_group_to_mu]; the list [data] is updated in place, so
    the updated list is the result. *)
Definition voltage_group_to_mu (voltage : list float) (data : list Z)
  : result (list Z) :=
  Py.for_in (Py.range (length voltage)) (voltage_group_step voltage) data.

(** [Fastino.set_dac] *)
Definition set_dac (dac : Z) (voltage : float) : kernel () :=
  data ← lift (voltage_to_mu voltage);
  write dac data.

(** [Fastino.set_group] *)
Definition set_group (dac : Z) (voltage : list float) : kernel () :=
  let data := (λ _, Py.int32 0) <$> Py.range (length voltage / 2)%nat in
  data ← lift (voltage_group_to_mu voltage data);
  set_group_mu dac data.

(** [Fastino.update] *)
Definition update (update : Z) : kernel () :=
  write 0x20 update.

(** [Fastino.set_hold] *)
Definition set_hold (hold : Z) : kernel () :=
  write 0x21 hold.

(** [Fastino.set_cfg] *)
Definition set_cfg (reset afe_power_down dac_clr clr_err : bool) : kernel () :=
  write 0x22
    (Z.lor (Z.lor (Z.lor (Py.int32_of_bool reset ≪ 0)
                         (Py.int32_of_bool afe_power_down ≪ 1))
                  (Py.int32_of_bool dac_clr ≪ 2))
           (Py.int32_of_bool clr_err ≪ 3)).

(** [Fastino.set_leds] *)
Definition set_leds (leds : Z) : kernel () :=
  write 0x23 leds.

(** [Fastino.set_continuous] *)
Definition set_continuous (channel_mask : Z) : kernel () :=
  write 0x25 channel_mask.

(** [Fastino.stage_cic_mu] *)
Definition stage_cic_mu (rate_mantissa rate_exponent gain_exponent : Z)
  : kernel () :=
  if (rate_mantissa <? 0) || (rate_mantissa >=? 1 ≪ 6)
  then raise (ValueError "rate_mantissa out of bounds")
  else if (rate_exponent <? 0) || (rate_exponent >=? 1 ≪ 4)
  then raise (ValueError "rate_exponent out of bounds")
  else if (gain_exponent <? 0) || (gain_exponent >=? 1 ≪ 6)
  then raise (ValueError "gain_exponent out of bounds")
  else
    let config :=
      Z.lor (Z.lor rate_mantissa (rate_exponent ≪ 6)) (gain_exponent ≪ 10) in
    write 0x26 config.

(** [for i in range(order): gain *= rate_mantissa], from [gain = 1]. *)
Definition cic_gain (rate_mantissa : Z) : Z :=
  fold_left (λ gain _, gain * rate_mantissa) (Py.range (Z.to_nat order)) 1.

(** The locals [rate_mantissa], [rate_exponent] and [gain_exponent] of
    [Fastino.stage_cic] as they stand when the assertion is reached. *)
Definition stage_cic_locals (rate : Z) : Z * Z * Z :=
  let '(rate_mantissa, rate_exponent) := rate_loop rate 0 in
  let gain := cic_gain rate_mantissa in
  let gain_exponent := gain_loop gain 0 in
  let gain_exponent := gain_exponent + order * rate_exponent in
  (rate_mantissa, rate_exponent, gain_exponent).

(** [Fastino.stage_cic] *)
Definition stage_cic (rate : Z) : kernel Z :=
  if (rate <=? 0) || (rate >? 1 ≪ 16)
  then raise (ValueError "rate out of bounds")
  else
    let '(rate_mantissa, rate_exponent, gain_exponent) :=
      stage_cic_locals rate in
    if gain_exponent <=? order * 16
    then
      stage_cic_mu (rate_mantissa - 1) rate_exponent gain_exponent;;
      mret (rate_mantissa ≪ rate_exponent)
    else raise AssertionError.

(** [Fastino.apply_cic] *)
Definition apply_cic (channel_mask : Z) : kernel () :=
  write 0x27 channel_mask.

(** [Fastino.init] *)
Definition init : kernel () :=
  set_cfg false false false true;;
  delay_mu (t_frame self);;
  set_cfg false false false false;;
  delay_mu (t_frame self);;
  set_continuous 0;;
  delay_mu (t_frame self);;
  stage_cic 1;;
  delay_mu (t_frame self);;
  apply_cic (Py.int32 (Int64.wrap 0xffffffff));;
  delay_mu (t_frame self);;
  set_leds 0;;
  delay_mu (t_frame self);;
  set_hold 0;;
  delay_mu (t_frame self).

End Methods.

(** ** Reference behaviour, in the words of the specification *)

(** One group word: the even-indexed sample in the low half, the odd-indexed
    one in the high half. *)
Definition group_word (mu_even mu_odd : Z) : Z :=
  Z.lor mu_even (mu_odd ≪ 16).

(** The specification's [pack_group] on machine units: consecutive samples are
    paired, and a final unpaired sample gets machine unit 0 as its partner. *)
Fixpoint pack_group (mus : list Z) : list Z :=
  match mus with
  | [] => []
  | [m] => [group_word m 0]
  | m0 :: m1 :: rest => group_word m0 m1 :: pack_group rest
  end.

(** The integer nearest to [m * 2^e], a tie going away from zero. *)
Definition round_half_away (m : positive) (e : Z) : Z :=
  if 0 <=? e then Z.pos m * 2 ^ e
  else
    let d := 2 ^ (- e) in
    let q := Z.pos m / d in
    let r := Z.pos m mod d in
    if 2 * r <? d then q else q + 1.

(** The specification's [voltage_to_mu]: [round(3276.8 * v) + 32768] with
    ties away from zero, a range error outside [0, 65535]. *)
Definition spec_voltage_to_mu (voltage : float) : option Z :=
  match Prim2SF ((of_uint63 0x8000 / 10) * voltage)%float with
  | S754_zero _ => Some 0x8000
  | S754_finite s m e =>
      let n := round_half_away m e in
      let data := (if s then - n else n) + 0x8000 in
      if (0 <=? data) && (data <=? 0xffff) then Some data else None
  | _ => None
  end.

(** [n] is the integer nearest to [m * 2^e], the even one at a tie. *)
Definition nearest_even (m : positive) (e : Z) (n : Z) : Prop :=
  if 0 <=? e then n = Z.pos m * 2 ^ e
  else
    let d := 2 ^ (- e) in
    2 * Z.abs (n * d - Z.pos m) <= d ∧
    (2 * Z.abs (n * d - Z.pos m) = d → Z.even n = true).

(** The rates a 6-bit mantissa and an exponent can express: [m * 2^e] with
    [m] from 1 to 64. *)
Definition representable (r : Z) : Prop :=
  ∃ m e, 1 <= m <= 64 ∧ 0 <= e ∧ r = m * 2 ^ e.

(** The outcome of an operation that writes at most once: it either raised
    and left the timeline as it was, or returned after adding exactly the
    event [intended] describes. *)
Definition all_or_nothing {A} (st : rtio) (intended : rtio_event → Prop)
    (outcome : result A * rtio) : Prop :=
  match outcome with
  | (Raise _, st') => st' = st
  | (Ok _, st') => ∃ ev, intended ev ∧ st' = emit ev st
  end.

(** [st'] is [st] with the cursor where it was and at most one more event,
    the earlier ones in place. *)
Definition at_most_one_write (st st' : rtio) : Prop :=
  now_mu st' = now_mu st ∧
  (events st' = events st ∨ ∃ ev, events st' = events st ++ [ev]).

(** * Properties *)

(** ** Fixed-width arithmetic *)

Ltac int32_range :=
  unfold Int32.in_range, Int32.min_signed, Int32.max_signed; lia.

Lemma wrap_range x : Int32.in_range (Int32.wrap x).
Proof.
  unfold Int32.in_range, Int32.wrap, Int32.min_signed, Int32.max_signed,
    Int32.modulus.
  pose proof (Z.mod_pos_bound (x + 2 ^ 31) (2 ^ 32)). lia.
Qed.

Lemma wrap_id x : Int32.in_range x → Int32.wrap x = x.
Proof.
  unfold Int32.in_range, Int32.wrap, Int32.min_signed, Int32.max_signed,
    Int32.modulus.
  intros H. rewrite Z.mod_small; lia.
Qed.

Lemma wrap_mod x : Int32.wrap x mod 2 ^ 32 = x mod 2 ^ 32.
Proof.
  unfold Int32.wrap, Int32.modulus.
  rewrite <- Zminus_mod_idemp_l, Z.mod_mod by lia.
  rewrite Zminus_mod_idemp_l. f_equal. lia.
Qed.

(** ** Running the register writes *)

Lemma write_run self addr data st :
  write self addr data st
  = (Ok (), emit (Output (now_mu st) (Z.lor (channel self) addr) data) st).
Proof. reflexivity. Qed.

Lemma init_fields ref_period channel_base log2_width self :
  __init__ ref_period channel_base log2_width = Ok self →
  0 <= log2_width ∧
  channel self = channel_base ≪ 8 ∧
  width self = 2 ^ log2_width.
Proof.
  unfold __init__, Py.lshift.
  destruct (Z.ltb_spec log2_width 0); simpl; [discriminate|].
  destruct (PrimFloat.eqb _ _); [|discriminate].
  intros [= <-]. simpl. rewrite Z.shiftl_1_l. auto.
Qed.

Lemma stage_cic_mu_run self rate_mantissa rate_exponent gain_exponent st :
  0 <= rate_mantissa < 64 →
  0 <= rate_exponent < 16 →
  0 <= gain_exponent < 64 →
  stage_cic_mu self rate_mantissa rate_exponent gain_exponent st
  = (Ok (), emit (Output (now_mu st) (Z.lor (channel self) 0x26)
       (Z.lor (Z.lor rate_mantissa (rate_exponent ≪ 6)) (gain_exponent ≪ 10)))
       st).
Proof.
  intros Hm He Hg. unfold stage_cic_mu.
  change (1 ≪ 6) with 64. change (1 ≪ 4) with 16.
  repeat match goal with
  | |- context [?a <? ?b] => destruct (Z.ltb_spec a b); [lia|]
  | |- context [?a >=? ?b] => rewrite (Z.geb_leb a b);
      destruct (Z.leb_spec b a); [lia|]
  end.
  reflexivity.
Qed.

(** C7: on a device built for [channel_base], every register operation issues
    one narrow write to [(channel_base << 8) | offset], with the offsets of the
    register map: update 0x20, hold 0x21, cfg 0x22 (packed as
    [reset | afe_power_down<<1 | dac_clr<<2 | clr_err<<3]), LEDs 0x23,
    continuous 0x25, staged CIC configuration 0x26 (packed as
    [rate_mantissa | rate_exponent<<6 | gain_exponent<<10]) and apply-CIC
    0x27. *)
Theorem register_map ref_period channel_base log2_width self :
  __init__ ref_period channel_base log2_width = Ok self →
  ∀ st,
    let issued offset word :=
      (Ok (), emit (Output (now_mu st) (Z.lor (channel_base ≪ 8) offset) word) st)
    in
    (∀ addr data, write self addr data st = issued addr data) ∧
    (∀ mask, update self mask st = issued 0x20 mask) ∧
    (∀ mask, set_hold self mask st = issued 0x21 mask) ∧
    (∀ reset afe_power_down dac_clr clr_err,
       set_cfg self reset afe_power_down dac_clr clr_err st
       = issued 0x22
           (Z.lor (Z.lor (Z.lor (Z.b2z reset) (Z.b2z afe_power_down ≪ 1))
                         (Z.b2z dac_clr ≪ 2))
                  (Z.b2z clr_err ≪ 3))) ∧
    (∀ leds, set_leds self leds st = issued 0x23 leds) ∧
    (∀ mask, set_continuous self mask st = issued 0x25 mask) ∧
    (∀ rate_mantissa rate_exponent gain_exponent,
       0 <= rate_mantissa < 64 →
       0 <= rate_exponent < 16 →
       0 <= gain_exponent < 64 →
       stage_cic_mu self rate_mantissa rate_exponent gain_exponent st
       = issued 0x26
           (Z.lor (Z.lor rate_mantissa (rate_exponent ≪ 6))
                  (gain_exponent ≪ 10))) ∧
    (∀ mask, apply_cic self mask st = issued 0x27 mask).
Proof.
  intros Hinit st issued. apply init_fields in Hinit as (_ & Hch & _).
  subst issued. rewrite <- Hch.
  repeat split; intros; try reflexivity.
  by apply stage_cic_mu_run.
Qed.

Lemma register_map_witness :
  let self := {| channel := 0x300; width := 1; t_frame := 392 |} in
  __init__ ns 3 0 = Ok self ∧
  update self 5 (Rtio 0 []) = (Ok (), Rtio 0 [Output 0 0x320 5]) ∧
  set_cfg self false false false true (Rtio 0 [])
  = (Ok (), Rtio 0 [Output 0 0x322 8]).
Proof.
  intros self.
  assert (Hinit : __init__ ns 3 0 = Ok self) by (vm_compute; reflexivity).
  pose proof (register_map ns 3 0 self Hinit (Rtio 0 [])) as H.
  split; [exact Hinit|]. split.
  - exact (proj1 (proj2 H) 5).
  - exact (proj1 (proj2 (proj2 (proj2 H))) false false false true).
Defined.

(** The initialisation sequence on a device for RTIO channel 3, from an empty
    timeline: seven register writes, one frame apart. *)
Example init_sequence :
  init {| channel := 0x300; width := 1; t_frame := 392 |} (Rtio 0 [])
  = (Ok (), Rtio 2744
       [Output 0 0x322 8; Output 392 0x322 0; Output 784 0x325 0;
        Output 1176 0x326 0; Output 1568 0x327 (-1); Output 1960 0x323 0;
        Output 2352 0x321 0]).
Proof. vm_compute. reflexivity. Qed.

(** ** Single-channel writes *)

(** C10: [set_dac_mu] and [set_dac] do not look at the channel index: whatever
    [dac] is, the write goes to [channel_base << 8 | dac], so index 0x20 lands
    on the update-mask register exactly as [update] does. *)
Theorem set_dac_unchecked_channel ref_period channel_base log2_width self :
  __init__ ref_period channel_base log2_width = Ok self →
  ∀ dac st,
    (∀ data,
       set_dac_mu self dac data st
       = (Ok (), emit (Output (now_mu st) (Z.lor (channel_base ≪ 8) dac) data) st)) ∧
    (∀ voltage data,
       voltage_to_mu voltage = Ok data →
       set_dac self dac voltage st
       = (Ok (), emit (Output (now_mu st) (Z.lor (channel_base ≪ 8) dac) data) st)) ∧
    (∀ data, set_dac_mu self 0x20 data st = update self data st).
Proof.
  intros Hinit dac st. apply init_fields in Hinit as (_ & Hch & _).
  rewrite <- Hch. split; [reflexivity|]. split; [|reflexivity].
  intros voltage data Hmu.
  unfold set_dac, lift, mbind, kernel_bind. rewrite Hmu. reflexivity.
Qed.

Lemma set_dac_unchecked_channel_witness :
  let self := {| channel := 0x300; width := 1; t_frame := 392 |} in
  __init__ ns 3 0 = Ok self ∧
  set_dac_mu self 0x21 7 (Rtio 0 []) = (Ok (), Rtio 0 [Output 0 0x321 7]) ∧
  set_dac self 0x27 0 (Rtio 0 []) = (Ok (), Rtio 0 [Output 0 0x327 0x8000]).
Proof.
  intros self.
  assert (Hinit : __init__ ns 3 0 = Ok self) by (vm_compute; reflexivity).
  pose proof (set_dac_unchecked_channel ns 3 0 self Hinit) as H.
  split; [exact Hinit|]. split.
  - exact (proj1 (H 0x21 (Rtio 0 [])) 7).
  - refine (proj1 (proj2 (H 0x27 (Rtio 0 []))) 0%float 0x8000 _).
    vm_compute. reflexivity.
Defined.

(** ** Group alignment *)

Lemma land_width_mod dac log2_width :
  0 <= log2_width → Z.land dac (2 ^ log2_width - 1) = dac mod 2 ^ log2_width.
Proof.
  intros H. rewrite <- Z.land_ones by assumption.
  rewrite Z.ones_equiv. reflexivity.
Qed.

(** C6: a group write in machine units raises the alignment error exactly when
    [first_channel % width] is not zero, and then nothing has been written;
    otherwise it issues the wide write.  With [log2_width = 0] (width 1) it
    never raises. *)
Theorem group_alignment ref_period channel_base log2_width self :
  __init__ ref_period channel_base log2_width = Ok self →
  ∀ dac data st,
    (set_group_mu self dac data st
     = (Raise (ValueError "Group index LSBs must be zero"), st)
     ↔ dac mod width self ≠ 0) ∧
    (set_group_mu self dac data st
     = (Ok (), emit (OutputWide (now_mu st) (Z.lor (channel_base ≪ 8) dac) data) st)
     ↔ dac mod width self = 0) ∧
    (width self = 1 →
     set_group_mu self dac data st
     = (Ok (), emit (OutputWide (now_mu st) (Z.lor (channel_base ≪ 8) dac) data) st)).
Proof.
  intros Hinit dac data st.
  apply init_fields in Hinit as (Hpos & Hch & Hw).
  rewrite <- Hch. unfold set_group_mu.
  rewrite Hw, land_width_mod by assumption.
  destruct (Z.eqb_spec (dac mod 2 ^ log2_width) 0) as [Heq|Hne]; simpl.
  - unfold rtio_output_wide.
    split; [split; [discriminate|contradiction]|].
    split; [split; trivial|trivial].
  - unfold raise.
    split; [split; trivial|].
    split; [split; [discriminate|contradiction]|].
    intros Hone. rewrite Hone, Z.mod_1_r in Hne. contradiction.
Qed.

Lemma group_alignment_witness :
  let self := {| channel := 0x300; width := 4; t_frame := 392 |} in
  __init__ ns 3 2 = Ok self ∧
  (set_group_mu self 6 [1; 2] (Rtio 0 [])
   = (Raise (ValueError "Group index LSBs must be zero"), Rtio 0 [])
   ↔ 6 mod width self ≠ 0).
Proof.
  intros self.
  assert (Hinit : __init__ ns 3 2 = Ok self) by (vm_compute; reflexivity).
  split; [exact Hinit|].
  exact (proj1 (group_alignment ns 3 2 self Hinit 6 [1; 2] (Rtio 0 []))).
Defined.

(** ** Rate quantisation and gain compensation *)

(** The mantissa loop halves [rate_mantissa] until it is at most 64 and counts
    the halvings; if it ran at all, the value before the last halving was
    above 64. *)
Lemma rate_loop_spec rate_mantissa rate_exponent :
  1 <= rate_mantissa →
  let r := rate_loop rate_mantissa rate_exponent in
  rate_exponent <= r.2 ∧
  1 <= r.1 <= 64 ∧
  r.1 = rate_mantissa / 2 ^ (r.2 - rate_exponent) ∧
  (rate_exponent < r.2 → 64 < rate_mantissa / 2 ^ (r.2 - rate_exponent - 1)).
Proof.
  apply (rate_loop_elim (λ m e r,
    1 <= m →
    e <= r.2 ∧ 1 <= r.1 <= 64 ∧ r.1 = m / 2 ^ (r.2 - e) ∧
    (e < r.2 → 64 < m / 2 ^ (r.2 - e - 1)))).
  - intros m Hgt e IH _ Hm. change (1 ≪ 6) with 64 in Hgt.
    rewrite Z.shiftr_div_pow2 in IH |- * by lia. change (2 ^ 1) with 2 in *.
    assert (Hhalf : 1 <= m / 2) by (apply Z.div_le_lower_bound; lia).
    destruct (IH Hhalf) as (He & Hb & Heq & Hprev).
    set (e' := (rate_loop (m / 2) (e + 1)).2) in *.
    set (m' := (rate_loop (m / 2) (e + 1)).1) in *.
    assert (Hdiv : ∀ k, 0 <= k → m / 2 / 2 ^ k = m / 2 ^ (k + 1)).
    { intros k Hk. rewrite Z.pow_add_r, Z.mul_comm by lia.
      rewrite Z.div_div by (try apply Z.pow_pos_nonneg; lia).
      reflexivity. }
    repeat split; try lia.
    + rewrite Heq, Hdiv by lia. f_equal. f_equal. lia.
    + intros _. destruct (Z.eq_dec e' (e + 1)) as [->|Hne].
      * replace (e + 1 - e - 1) with 0 by lia.
        rewrite Z.pow_0_r, Z.div_1_r. lia.
      * replace (e' - e - 1) with (e' - (e + 1) - 1 + 1) by lia.
        rewrite <- Hdiv by lia. apply Hprev. lia.
  - intros m Hle e _ Hm. change (1 ≪ 6) with 64 in Hle. simpl.
    rewrite Z.sub_diag, Z.pow_0_r, Z.div_1_r. lia.
Qed.

(** The exponent loop stops at the least exponent, from the starting one on,
    whose power of two reaches [gain]. *)
Lemma gain_loop_spec gain gain_exponent :
  0 <= gain_exponent →
  let g := gain_loop gain gain_exponent in
  gain_exponent <= g ∧ gain <= 2 ^ g ∧ (g = gain_exponent ∨ 2 ^ (g - 1) < gain).
Proof.
  apply (gain_loop_elim (λ gain ge g,
    0 <= ge → ge <= g ∧ gain <= 2 ^ g ∧ (g = ge ∨ 2 ^ (g - 1) < gain))).
  - intros g ge Hgt IH _ Hge. rewrite Z.shiftl_1_l in Hgt.
    destruct IH as (Hle & Hup & Hlow); [lia|].
    repeat split; try lia.
    destruct Hlow as [->|Hlow]; right; [|assumption].
    replace (ge + 1 - 1) with ge by lia. lia.
  - intros g ge Hle _ Hge. rewrite Z.shiftl_1_l in Hle. lia.
Qed.

Lemma gain_loop_bound gain n :
  0 <= n → gain <= 2 ^ n → 0 <= gain_loop gain 0 <= n.
Proof.
  intros Hn Hgain.
  destruct (gain_loop_spec gain 0) as (Hle & _ & Hlow); [lia|].
  split; [assumption|].
  destruct Hlow as [->|Hlow]; [assumption|].
  assert (2 ^ (gain_loop gain 0 - 1) < 2 ^ n) as Hlt by lia.
  apply Z.pow_lt_mono_r_iff in Hlt; lia.
Qed.

Lemma cic_gain_cube rate_mantissa : cic_gain rate_mantissa = rate_mantissa ^ 3.
Proof. unfold cic_gain. simpl. lia. Qed.

(** What [stage_cic] holds in its locals for a rate it accepts. *)
Lemma stage_cic_locals_spec rate :
  1 <= rate <= 65536 →
  let '(rate_mantissa, rate_exponent, gain_exponent) := stage_cic_locals rate in
  1 <= rate_mantissa <= 64 ∧
  0 <= rate_exponent <= 10 ∧
  0 <= gain_exponent <= 48 ∧
  rate_mantissa * 2 ^ rate_exponent <= rate < (rate_mantissa + 1) * 2 ^ rate_exponent.
Proof.
  intros Hrate. unfold stage_cic_locals.
  pose proof (rate_loop_spec rate 0 ltac:(lia)) as (He & Hm & Heq & Hprev).
  destruct (rate_loop rate 0) as [m e]. simpl in *.
  rewrite Z.sub_0_r in *.
  assert (Hpow : 0 < 2 ^ e) by (apply Z.pow_pos_nonneg; lia).
  assert (He10 : e <= 10).
  { destruct (Z.eq_dec e 0) as [->|Hne]; [lia|].
    specialize (Hprev ltac:(lia)).
    assert (Hpow' : 0 < 2 ^ (e - 1)) by (apply Z.pow_pos_nonneg; lia).
    pose proof (Z.mul_div_le rate (2 ^ (e - 1)) Hpow').
    assert (2 ^ (e - 1) < 2 ^ 10) as Hlt by (change (2 ^ 10) with 1024; nia).
    apply Z.pow_lt_mono_r_iff in Hlt; lia. }
  assert (Hgain : cic_gain m <= 2 ^ 18).
  { rewrite cic_gain_cube. change (2 ^ 18) with (64 ^ 3).
    apply Z.pow_le_mono_l. lia. }
  pose proof (gain_loop_bound (cic_gain m) 18 ltac:(lia) Hgain).
  unfold order.
  repeat split; try lia.
  - subst m. rewrite Z.mul_comm. apply Z.mul_div_le. lia.
  - subst m. rewrite Z.mul_comm. apply Z.mul_succ_div_gt. lia.
Qed.

(** For a rate it accepts, the values [stage_cic] computes, the largest power
    of two its exponent loop compares with included, are 32-bit values. *)
Lemma stage_cic_fits_int32 rate :
  1 <= rate <= 65536 →
  let '(rate_mantissa, rate_exponent, gain_exponent) := stage_cic_locals rate in
  Int32.in_range (cic_gain rate_mantissa) ∧
  Int32.in_range (1 ≪ gain_loop (cic_gain rate_mantissa) 0) ∧
  Int32.in_range (order * rate_exponent) ∧
  Int32.in_range gain_exponent ∧
  Int32.in_range (rate_mantissa ≪ rate_exponent).
Proof.
  intros Hrate. pose proof (stage_cic_locals_spec rate Hrate) as Hspec.
  unfold stage_cic_locals in *.
  destruct (rate_loop rate 0) as [m e].
  destruct Hspec as (Hm & He & Hg & Hlo & _).
  assert (Hgain : 1 <= cic_gain m <= 2 ^ 18).
  { rewrite cic_gain_cube. change (2 ^ 18) with (64 ^ 3). split.
    - change 1 with (1 ^ 3). apply Z.pow_le_mono_l. lia.
    - apply Z.pow_le_mono_l. lia. }
  pose proof (gain_loop_bound (cic_gain m) 18 ltac:(lia) (proj2 Hgain)) as Hloop.
  assert (Hpow : 1 <= 2 ^ gain_loop (cic_gain m) 0 <= 2 ^ 18).
  { split.
    - apply (Z.pow_le_mono_r 2 0); lia.
    - apply Z.pow_le_mono_r; lia. }
  assert (0 < 2 ^ e) by (apply Z.pow_pos_nonneg; lia).
  rewrite Z.shiftl_1_l, (Z.shiftl_mul_pow2 m e) by lia.
  change (2 ^ 18) with 262144 in *. unfold order in *.
  repeat split; int32_range.
Qed.

(** A rate in range passes the assertion and the three range checks of
    [stage_cic_mu], so [stage_cic] writes the configuration and returns. *)
Lemma stage_cic_run self rate st :
  1 <= rate <= 65536 →
  let '(rate_mantissa, rate_exponent, gain_exponent) := stage_cic_locals rate in
  stage_cic self rate st
  = (Ok (rate_mantissa ≪ rate_exponent),
     emit (Output (now_mu st) (Z.lor (channel self) 0x26)
             (Z.lor (Z.lor (rate_mantissa - 1) (rate_exponent ≪ 6))
                    (gain_exponent ≪ 10))) st).
Proof.
  intros Hrate. pose proof (stage_cic_locals_spec rate Hrate) as Hspec.
  unfold stage_cic. change (1 ≪ 16) with 65536.
  destruct (Z.leb_spec rate 0); [lia|].
  rewrite Z.gtb_ltb. destruct (Z.ltb_spec 65536 rate); [lia|]. simpl.
  destruct (stage_cic_locals rate) as [[m e] g].
  destruct Hspec as (Hm & He & Hg & _).
  unfold order. destruct (Z.leb_spec g (3 * 16)); [|lia].
  unfold mbind, kernel_bind.
  rewrite stage_cic_mu_run by lia. reflexivity.
Qed.

Lemma stage_cic_rejects self rate st :
  rate <= 0 ∨ rate > 65536 →
  stage_cic self rate st = (Raise (ValueError "rate out of bounds"), st).
Proof.
  intros Hrate. unfold stage_cic. change (1 ≪ 16) with 65536.
  rewrite Z.gtb_ltb.
  destruct (Z.leb_spec rate 0), (Z.ltb_spec 65536 rate); try lia; reflexivity.
Qed.

(** Or-ing a field above [n] low bits is the same as adding it. *)
Lemma lor_shiftl_add a b n :
  0 <= n → 0 <= a < 2 ^ n → Z.lor a (b ≪ n) = a + b * 2 ^ n.
Proof.
  intros Hn Ha.
  assert (Hdisj : Z.land a (b ≪ n) = 0).
  { apply Z.bits_inj'. intros i Hi.
    rewrite Z.land_spec, Z.bits_0.
    destruct (Z.lt_ge_cases i n) as [Hlt|Hge].
    - rewrite Z.shiftl_spec_low by assumption. apply andb_false_r.
    - rewrite <- (Z.mod_small a (2 ^ n)) by assumption.
      rewrite Z.mod_pow2_bits_high by lia. reflexivity. }
  rewrite <- Z.lxor_lor by assumption.
  rewrite <- Z.add_nocarry_lxor by assumption.
  rewrite Z.shiftl_mul_pow2 by assumption. reflexivity.
Qed.

(** The three fields can be read back from a staged configuration word. *)
Lemma cic_config_fields rate_mantissa rate_exponent gain_exponent :
  0 <= rate_mantissa < 64 →
  0 <= rate_exponent < 16 →
  0 <= gain_exponent →
  let config :=
    Z.lor (Z.lor rate_mantissa (rate_exponent ≪ 6)) (gain_exponent ≪ 10) in
  config mod 64 = rate_mantissa ∧
  (config ≫ 6) mod 16 = rate_exponent ∧
  config ≫ 10 = gain_exponent.
Proof.
  intros Hm He Hg config. subst config.
  rewrite (lor_shiftl_add rate_mantissa) by (change (2 ^ 6) with 64; lia).
  rewrite lor_shiftl_add by (change (2 ^ 6) with 64; change (2 ^ 10) with 1024; lia).
  rewrite !Z.shiftr_div_pow2 by lia.
  change (2 ^ 6) with 64. change (2 ^ 10) with 1024.
  repeat split.
  - symmetry. apply (Z.mod_unique_pos _ _ (rate_exponent + 16 * gain_exponent)); lia.
  - replace ((rate_mantissa + rate_exponent * 64 + gain_exponent * 1024) / 64)
      with (rate_exponent + 16 * gain_exponent).
    + symmetry. apply (Z.mod_unique_pos _ _ gain_exponent); lia.
    + apply (Z.div_unique_pos _ _ _ rate_mantissa); lia.
  - symmetry. apply (Z.div_unique_pos _ _ _ (rate_mantissa + rate_exponent * 64)); lia.
Qed.

(** C1: [stage_cic] raises exactly for [rate <= 0] or [rate > 65536], and the
    error is the range error; for every other rate it returns an achieved rate
    that is at most [rate] and more than half of it, and the gain exponent it
    has computed is at most 48. *)
Theorem stage_cic_range self rate st :
  ((∃ e, (stage_cic self rate st).1 = Raise e) ↔ rate <= 0 ∨ rate > 65536) ∧
  (rate <= 0 ∨ rate > 65536 →
   stage_cic self rate st = (Raise (ValueError "rate out of bounds"), st)) ∧
  (1 <= rate <= 65536 →
   ∃ achieved_rate,
     (stage_cic self rate st).1 = Ok achieved_rate ∧
     achieved_rate <= rate ∧
     rate < 2 * achieved_rate ∧
     (stage_cic_locals rate).2 <= 48).
Proof.
  assert (Hok : 1 <= rate <= 65536 →
    ∃ achieved_rate,
      (stage_cic self rate st).1 = Ok achieved_rate ∧
      achieved_rate <= rate ∧ rate < 2 * achieved_rate ∧
      (stage_cic_locals rate).2 <= 48).
  { intros Hrate.
    pose proof (stage_cic_run self rate st Hrate) as Hrun.
    pose proof (stage_cic_locals_spec rate Hrate) as Hspec.
    destruct (stage_cic_locals rate) as [[m e] g].
    destruct Hspec as (Hm & He & Hg & Hlo & Hhi).
    exists (m ≪ e). rewrite Hrun. simpl.
    rewrite Z.shiftl_mul_pow2 by lia.
    assert (0 < 2 ^ e) by (apply Z.pow_pos_nonneg; lia).
    repeat split; [lia|nia|lia]. }
  split; [|split; [apply stage_cic_rejects | exact Hok]].
  split.
  - intros [e He].
    destruct (Z.le_gt_cases rate 0); [lia|].
    destruct (Z.le_gt_cases rate 65536); [|lia].
    destruct Hok as (a & Ha & _); [lia|]. congruence.
  - intros Hrate. rewrite stage_cic_rejects by assumption. eauto.
Qed.

Lemma stage_cic_range_witness :
  1 <= 1000 <= 65536 ∧
  ∃ achieved_rate,
    (stage_cic (Build_Fastino 0x300 1 392) 1000 (Rtio 0 [])).1 = Ok achieved_rate ∧
    achieved_rate <= 1000 ∧
    1000 < 2 * achieved_rate ∧
    (stage_cic_locals 1000).2 <= 48.
Proof.
  assert (H : 1 <= 1000 <= 65536) by lia.
  split; [exact H|].
  exact (proj2 (proj2 (stage_cic_range (Build_Fastino 0x300 1 392) 1000 (Rtio 0 []))) H).
Defined.

Lemma stage_cic_locals_pow2 k :
  0 <= k <= 16 →
  stage_cic_locals (2 ^ k) = (Z.min (2 ^ k) 64, Z.max (k - 6) 0, 3 * k).
Proof.
  intros Hk.
  assert (Hcases : Forall (λ k, stage_cic_locals (2 ^ k)
            = (Z.min (2 ^ k) 64, Z.max (k - 6) 0, 3 * k)) (seqZ 0 17))
    by (refine (bool_decide_unpack _ _); vm_compute; exact I).
  rewrite Forall_forall in Hcases. apply Hcases.
  apply elem_of_seqZ. lia.
Qed.

(** C2: for [0 <= k <= 16], [stage_cic(2^k)] returns exactly [2^k] and has
    computed [gain_exponent = 3*k], which is the field it stages; in
    particular [stage_cic(1)] returns 1 and stages the all-zero
    configuration. *)
Theorem stage_cic_power_of_two self k st :
  0 <= k <= 16 →
  (stage_cic_locals (2 ^ k)).2 = 3 * k ∧
  (∃ config,
     stage_cic self (2 ^ k) st
     = (Ok (2 ^ k), emit (Output (now_mu st) (Z.lor (channel self) 0x26) config) st) ∧
     config ≫ 10 = 3 * k) ∧
  stage_cic self 1 st = (Ok 1, (stage_cic_mu self 0 0 0 st).2) ∧
  stage_cic_mu self 0 0 0 st
  = (Ok (), emit (Output (now_mu st) (Z.lor (channel self) 0x26) 0) st).
Proof.
  intros Hk.
  assert (Hpow : 1 <= 2 ^ k <= 65536).
  { change 65536 with (2 ^ 16). split.
    - apply (Z.pow_le_mono_r 2 0 k); lia.
    - apply Z.pow_le_mono_r; lia. }
  pose proof (stage_cic_run self (2 ^ k) st Hpow) as Hrun.
  pose proof (stage_cic_locals_spec (2 ^ k) Hpow) as Hspec.
  rewrite stage_cic_locals_pow2 in * by assumption.
  destruct Hspec as (Hm & He & Hg & _).
  split; [reflexivity|]. split.
  - eexists. split.
    + rewrite Hrun. f_equal. f_equal.
      rewrite Z.shiftl_mul_pow2 by lia.
      destruct (Z.le_gt_cases k 6) as [Hle|Hgt].
      * rewrite Z.min_l, Z.max_r by
          (try (change 64 with (2 ^ 6); apply Z.pow_le_mono_r); lia).
        rewrite Z.pow_0_r. lia.
      * rewrite Z.min_r, Z.max_l by
          (try (change 64 with (2 ^ 6); apply Z.pow_le_mono_r); lia).
        change 64 with (2 ^ 6). rewrite <- Z.pow_add_r by lia.
        f_equal. lia.
    + apply cic_config_fields; lia.
  - pose proof (stage_cic_run self 1 st ltac:(lia)) as Hone.
    change 1 with (2 ^ 0) in Hone at 1.
    rewrite (stage_cic_locals_pow2 0) in Hone by lia.
    split; [exact Hone | reflexivity].
Qed.

Lemma stage_cic_power_of_two_witness :
  0 <= 9 <= 16 ∧
  (stage_cic_locals (2 ^ 9)).2 = 3 * 9 ∧
  stage_cic (Build_Fastino 0x300 1 392) 1 (Rtio 0 [])
  = (Ok 1, Rtio 0 [Output 0 0x326 0]).
Proof.
  assert (H : 0 <= 9 <= 16) by lia.
  pose proof (stage_cic_power_of_two (Build_Fastino 0x300 1 392) 9 (Rtio 0 []) H)
    as (Hg & _ & H1 & _).
  split; [exact H|]. split; [exact Hg | exact H1].
Defined.

(** C9: for every rate in [1, 65536] the assertion [gain_exponent <= 3*16]
    holds and none of the three range checks of [stage_cic_mu] fires on the
    arguments [stage_cic] passes, so [stage_cic] neither fails the assertion
    nor raises: it stages the configuration and returns the achieved rate. *)
Theorem stage_cic_checks_unreachable self rate st :
  1 <= rate <= 65536 →
  let '(rate_mantissa, rate_exponent, gain_exponent) := stage_cic_locals rate in
  gain_exponent <= order * 16 ∧
  0 <= rate_mantissa - 1 < 1 ≪ 6 ∧
  0 <= rate_exponent < 1 ≪ 4 ∧
  0 <= gain_exponent < 1 ≪ 6 ∧
  stage_cic self rate st
  = (Ok (rate_mantissa ≪ rate_exponent),
     (stage_cic_mu self (rate_mantissa - 1) rate_exponent gain_exponent st).2) ∧
  (stage_cic_mu self (rate_mantissa - 1) rate_exponent gain_exponent st).1 = Ok ().
Proof.
  intros Hrate.
  pose proof (stage_cic_run self rate st Hrate) as Hrun.
  pose proof (stage_cic_locals_spec rate Hrate) as Hspec.
  destruct (stage_cic_locals rate) as [[m e] g].
  destruct Hspec as (Hm & He & Hg & _).
  change (1 ≪ 6) with 64. change (1 ≪ 4) with 16. unfold order.
  rewrite Hrun, stage_cic_mu_run by lia. simpl.
  repeat split; lia.
Qed.

Lemma stage_cic_checks_unreachable_witness :
  1 <= 65535 <= 65536 ∧
  stage_cic (Build_Fastino 0x300 1 392) 65535 (Rtio 0 [])
  = (Ok 64512, Rtio 0 [Output 0 0x326 49854]).
Proof.
  assert (H : 1 <= 65535 <= 65536) by lia.
  split; [exact H|].
  pose proof (stage_cic_checks_unreachable
                (Build_Fastino 0x300 1 392) 65535 (Rtio 0 []) H) as Hc.
  vm_compute in Hc. exact (proj1 (proj2 (proj2 (proj2 (proj2 Hc))))).
Defined.

(** ** The voltage codec *)

(** [Py.round_half_even] does round to nearest, ties to even. *)
Lemma round_half_even_nearest m e : nearest_even m e (Py.round_half_even m e).
Proof.
  unfold nearest_even, Py.round_half_even.
  destruct (Z.leb_spec 0 e) as [Hpos|Hneg]; [reflexivity|].
  set (d := 2 ^ (- e)).
  assert (Hd : 0 < d) by (apply Z.pow_pos_nonneg; lia).
  pose proof (Z.div_mod (Z.pos m) d ltac:(lia)) as Hdm.
  pose proof (Z.mod_pos_bound (Z.pos m) d Hd) as Hr.
  set (q := Z.pos m / d) in *. set (r := Z.pos m mod d) in *. simpl.
  destruct (Z.compare_spec (2 * r) d) as [Htie|Hlow|Hhigh].
  - destruct (Z.even q) eqn:Hq.
    + split; [nia|auto].
    + split; [nia|]. intros _.
      rewrite Z.add_1_r, Z.even_succ, <- Z.negb_even, Hq. reflexivity.
  - split; [nia|]. intros Heq. exfalso. nia.
  - split; [nia|]. intros Heq. exfalso. nia.
Qed.

Lemma round_half_even_nonneg m e : 0 <= Py.round_half_even m e.
Proof.
  unfold Py.round_half_even.
  destruct (Z.leb_spec 0 e).
  - apply Z.mul_nonneg_nonneg; [lia|apply Z.pow_nonneg; lia].
  - assert (0 <= Z.pos m / 2 ^ (- e))
      by (apply Z.div_pos; [lia|apply Z.pow_pos_nonneg; lia]).
    cbv zeta. destruct (_ ?= _); [destruct (Z.even _)| |]; lia.
Qed.

Lemma voltage_to_mu_of_round voltage n :
  Py.round ((of_uint63 0x8000 / 10) * voltage) = Ok n →
  Int32.in_range n →
  voltage_to_mu voltage
  = if decide (0 <= n + 0x8000 <= 0xffff) then Ok (n + 0x8000)
    else Raise (ValueError "DAC voltage out of bounds").
Proof.
  intros Hround Hn. unfold voltage_to_mu. rewrite Hround. simpl.
  unfold Py.int32, Int32.add. rewrite (wrap_id n) by assumption.
  rewrite (wrap_id 32768) by (vm_compute; split; discriminate).
  unfold Int32.in_range, Int32.min_signed, Int32.max_signed in Hn.
  set (data := Int32.wrap (n + 32768)).
  assert (Hdata : (n + 32768 <= 2 ^ 31 - 1 ∧ data = n + 32768) ∨
                  (2 ^ 31 - 1 < n + 32768 ∧ data < 0)).
  { destruct (Z.le_gt_cases (n + 32768) (2 ^ 31 - 1)) as [Hle|Hgt].
    - left. split; [assumption|]. apply wrap_id.
      unfold Int32.in_range, Int32.min_signed, Int32.max_signed. lia.
    - right. split; [assumption|]. subst data.
      unfold Int32.wrap, Int32.modulus.
      replace (n + 32768 + 2 ^ 31) with (n + 32768 - 2 ^ 31 + 1 * 2 ^ 32) by lia.
      rewrite Z.mod_add, Z.mod_small by lia. lia. }
  rewrite Z.gtb_ltb.
  destruct (Z.ltb_spec data 0), (Z.ltb_spec 65535 data), Hdata as [[? ?]|[? ?]];
    case_decide; simpl; try lia; try reflexivity; congruence.
Qed.

(** C5, as the code has it: whenever the scaled voltage (the double product
    of [32768/10] and the voltage) rounds to an integer [n] that fits 32 bits,
    [voltage_to_mu] returns [n + 32768], raising the out-of-bounds error
    exactly when that lies outside [0, 65535]; the rounding is to the nearest
    integer with a tie going to the even neighbour.  Zero volts give 0x8000
    and -10 volts give 0x0000. *)
Theorem voltage_to_mu_rounding voltage n :
  Py.round ((of_uint63 0x8000 / 10) * voltage) = Ok n →
  Int32.in_range n →
  (voltage_to_mu voltage = Ok (n + 0x8000) ↔ 0 <= n + 0x8000 <= 0xffff) ∧
  (voltage_to_mu voltage = Raise (ValueError "DAC voltage out of bounds")
   ↔ ¬ 0 <= n + 0x8000 <= 0xffff) ∧
  (∀ s m e,
     Prim2SF ((of_uint63 0x8000 / 10) * voltage) = S754_finite s m e →
     nearest_even m e (Z.abs n) ∧ n = if s then - Z.abs n else Z.abs n) ∧
  voltage_to_mu 0 = Ok 0x8000 ∧
  voltage_to_mu (-10) = Ok 0x0000.
Proof.
  intros Hround Hn.
  rewrite (voltage_to_mu_of_round voltage n Hround Hn).
  split; [|split; [|split; [|split]]].
  - case_decide; split; intros; (lia || congruence).
  - case_decide; split; intros; (lia || congruence).
  - intros s m e Hfinite.
    unfold Py.round in Hround. rewrite Hfinite in Hround.
    injection Hround as <-.
    pose proof (round_half_even_nearest m e) as Hnear.
    pose proof (round_half_even_nonneg m e) as Hnonneg.
    destruct s; [rewrite Z.abs_opp|]; rewrite Z.abs_eq by assumption; auto.
  - vm_compute. reflexivity.
  - vm_compute. reflexivity.
Qed.

Lemma voltage_to_mu_rounding_witness :
  Py.round ((of_uint63 0x8000 / 10) * 1) = Ok 3277 ∧
  Int32.in_range 3277 ∧
  (voltage_to_mu 1 = Ok (3277 + 0x8000) ↔ 0 <= 3277 + 0x8000 <= 0xffff).
Proof.
  assert (Hround : Py.round ((of_uint63 0x8000 / 10) * 1) = Ok 3277)
    by (vm_compute; reflexivity).
  assert (Hn : Int32.in_range 3277) by (vm_compute; split; discriminate).
  split; [exact Hround|]. split; [exact Hn|].
  exact (proj1 (voltage_to_mu_rounding 1 3277 Hround Hn)).
Defined.

(** C5 as stated fails at a tie: for 10/65536 volts the scaled voltage is
    exactly one half; the code rounds it to 0 and returns 0x8000, where
    rounding away from zero would give 0x8001. *)
Lemma voltage_to_mu_tie_not_away :
  let voltage := 0.000152587890625%float in
  Prim2SF ((of_uint63 0x8000 / 10) * voltage) = S754_finite false (2 ^ 52) (-53) ∧
  spec_voltage_to_mu voltage = Some 0x8001 ∧
  voltage_to_mu voltage = Ok 0x8000 ∧
  voltage_to_mu voltage ≠ Ok 0x8001.
Proof. vm_compute. repeat split. discriminate. Qed.

(** Ten volts scale to 65536, one above the largest machine unit. *)
Lemma voltage_to_mu_ten :
  voltage_to_mu 10 = Raise (ValueError "DAC voltage out of bounds").
Proof. vm_compute. reflexivity. Qed.

(** Voltages that are not numbers or not finite fail inside [round]. *)
Lemma voltage_to_mu_not_finite :
  voltage_to_mu nan
  = Raise (ValueError "cannot convert float NaN to integer") ∧
  voltage_to_mu infinity
  = Raise (OverflowError "cannot convert float infinity to integer").
Proof. vm_compute. split; reflexivity. Qed.

(** Beyond 32 bits the conversion [int32(...)] reduces modulo 2^32: for
    1310720 volts the scaled voltage is exactly 2^32. *)
Lemma voltage_to_mu_beyond_int32 :
  Py.round ((of_uint63 0x8000 / 10) * 1310720) = Ok (2 ^ 32) ∧
  voltage_to_mu 1310720 = Ok 0x8000.
Proof. vm_compute. split; reflexivity. Qed.

Lemma voltage_to_mu_bounds voltage data :
  voltage_to_mu voltage = Ok data → 0 <= data <= 0xffff.
Proof.
  unfold voltage_to_mu. destruct (Py.round _) as [r|]; simpl; [|discriminate].
  set (d := Int32.add _ _). rewrite Z.gtb_ltb.
  destruct (Z.ltb_spec d 0), (Z.ltb_spec 65535 d); simpl; try discriminate.
  intros [= <-]. lia.
Qed.

(** ** Group packing *)

Lemma for_in_app {A S} (xs ys : list A) (body : S → A → result S) acc :
  Py.for_in (xs ++ ys) body acc
  = acc' ← Py.for_in xs body acc; Py.for_in ys body acc'.
Proof.
  revert acc. induction xs as [|x xs IH]; intros acc; simpl; [reflexivity|].
  destruct (body acc x); simpl; [apply IH|reflexivity].
Qed.

Lemma wrap_high x :
  2 ^ 31 <= x < 2 ^ 32 + 2 ^ 31 → Int32.wrap x = x - 2 ^ 32.
Proof.
  intros Hx. unfold Int32.wrap, Int32.modulus.
  replace (x + 2 ^ 31) with (x - 2 ^ 31 + 1 * 2 ^ 32) by lia.
  rewrite Z.mod_add, Z.mod_small by lia. lia.
Qed.

(** The word the loop leaves in a slot after an even and an odd sample. *)
Lemma packed_word mu_even mu_odd :
  0 <= mu_even <= 0xffff → 0 <= mu_odd <= 0xffff →
  Py.int32 (Z.lor mu_even (Int32.shl mu_odd 16))
  = Int32.wrap (group_word mu_even mu_odd).
Proof.
  intros He Ho. unfold Py.int32, Int32.shl, group_word.
  rewrite (lor_shiftl_add mu_even mu_odd 16) by (change (2 ^ 16) with 65536; lia).
  rewrite Z.shiftl_mul_pow2 by lia. change (2 ^ 16) with 65536.
  destruct (Z.lt_ge_cases mu_odd 32768) as [Hlow|Hhigh].
  - rewrite (wrap_id (mu_odd * 65536)) by int32_range.
    replace (mu_odd * 65536) with (mu_odd ≪ 16) at 1
      by (rewrite Z.shiftl_mul_pow2 by lia; reflexivity).
    rewrite lor_shiftl_add by (change (2 ^ 16) with 65536; lia).
    change (2 ^ 16) with 65536. reflexivity.
  - rewrite (wrap_high (mu_odd * 65536)) by lia.
    replace (mu_odd * 65536 - 2 ^ 32) with ((mu_odd - 65536) ≪ 16)
      by (rewrite Z.shiftl_mul_pow2 by lia; lia).
    rewrite lor_shiftl_add by (change (2 ^ 16) with 65536; lia).
    change (2 ^ 16) with 65536.
    rewrite wrap_id by int32_range.
    rewrite wrap_high by lia. lia.
Qed.

(** Read as an unsigned 32-bit pattern, the word is [mu_even | mu_odd << 16]:
    the even sample is the low half and the odd sample the high half. *)
Lemma packed_word_halves mu_even mu_odd :
  0 <= mu_even <= 0xffff → 0 <= mu_odd <= 0xffff →
  let word := Int32.wrap (group_word mu_even mu_odd) in
  word mod 2 ^ 32 = group_word mu_even mu_odd ∧
  word mod 2 ^ 16 = mu_even ∧
  (word mod 2 ^ 32) ≫ 16 = mu_odd.
Proof.
  intros He Ho word. subst word. rewrite wrap_mod. unfold group_word.
  rewrite lor_shiftl_add by (change (2 ^ 16) with 65536; lia).
  assert (Hsmall : (mu_even + mu_odd * 2 ^ 16) mod 2 ^ 32
                   = mu_even + mu_odd * 2 ^ 16)
    by (apply Z.mod_small; change (2 ^ 16) with 65536; lia).
  rewrite Hsmall. split; [reflexivity|]. split.
  - rewrite <- (Z.mod_mod_divide _ (2 ^ 32)), wrap_mod
      by (exists (2 ^ 16); reflexivity).
    rewrite Hsmall, Z.mod_add by lia.
    apply Z.mod_small. change (2 ^ 16) with 65536. lia.
  - rewrite Z.shiftr_div_pow2 by lia.
    symmetry. apply (Z.div_unique_pos _ _ _ mu_even); change (2 ^ 16) with 65536; lia.
Qed.

Lemma pair_ind {A} (P : list A → Prop) :
  P [] → (∀ x, P [x]) → (∀ x y l, P l → P (x :: y :: l)) → ∀ l, P l.
Proof.
  intros Hnil Hone Hcons l.
  enough (P l ∧ ∀ x, P (x :: l)) by tauto.
  induction l as [|y l [IH1 IH2]]; split; auto.
Qed.

Lemma half_succ_succ n : (S (S n) / 2 = S (n / 2))%nat.
Proof. exact (Nat.div_add_l 1 2 n ltac:(lia)). Qed.

Lemma bind_Ok {A B} (a : A) (f : A → result B) : (Ok a ≫= f) = f a.
Proof. reflexivity. Qed.

Lemma getitem_Some {A} (l : list A) i x : l !! i = Some x → Py.getitem l i = Ok x.
Proof. intros H. unfold Py.getitem. rewrite H. reflexivity. Qed.

Lemma step_even voltage data j x m :
  voltage !! (2 * j)%nat = Some x →
  voltage_to_mu x = Ok m →
  voltage_group_step voltage data (2 * j) = Py.setitem data j m.
Proof.
  intros Hx Hm. unfold voltage_group_step.
  rewrite (getitem_Some _ _ _ Hx), bind_Ok, Hm, bind_Ok.
  replace (Z.land (Z.of_nat (2 * j)) 1) with 0.
  - rewrite Z.eqb_refl. cbn [negb]. rewrite bind_Ok.
    rewrite Nat.mul_comm, Nat.div_mul by lia.
    unfold Py.int32. rewrite wrap_id; [reflexivity|].
    apply voltage_to_mu_bounds in Hm. int32_range.
  - change 1 with (Z.ones 1). rewrite Z.land_ones by lia.
    change (2 ^ 1) with 2. rewrite Nat2Z.inj_mul, Z.mul_comm, Z.mod_mul; lia.
Qed.

Lemma step_odd voltage data j x m :
  voltage !! (2 * j + 1)%nat = Some x →
  voltage_to_mu x = Ok m →
  voltage_group_step voltage data (2 * j + 1)
  = d ← Py.getitem data j;
    Py.setitem data j (Py.int32 (Z.lor d (Int32.shl m 16))).
Proof.
  intros Hx Hm. unfold voltage_group_step.
  rewrite (getitem_Some _ _ _ Hx), bind_Ok, Hm, bind_Ok.
  replace (Z.land (Z.of_nat (2 * j + 1)) 1) with 1.
  - change (negb (1 =? 0)) with true. cbv iota.
    replace ((2 * j + 1) / 2)%nat with j.
    + destruct (Py.getitem data j); reflexivity.
    + apply (Nat.div_unique _ _ _ 1); lia.
  - change 1 with (Z.ones 1) at 2. rewrite Z.land_ones by lia.
    change (2 ^ 1) with 2. rewrite Nat2Z.inj_add, Nat2Z.inj_mul.
    rewrite Z.add_comm, Z.mul_comm, Z.mod_add by lia. reflexivity.
Qed.

(** One even and one odd sample fill slot [j] with their packed word. *)
Lemma step_pair voltage data j x0 x1 m0 m1 :
  (j < length data)%nat →
  voltage !! (2 * j)%nat = Some x0 → voltage_to_mu x0 = Ok m0 →
  voltage !! (2 * j + 1)%nat = Some x1 → voltage_to_mu x1 = Ok m1 →
  Py.for_in [(2 * j)%nat; (2 * j + 1)%nat] (voltage_group_step voltage) data
  = Ok (<[j := Int32.wrap (group_word m0 m1)]> data).
Proof.
  intros Hj Hx0 Hm0 Hx1 Hm1. simpl.
  rewrite (step_even _ _ _ _ _ Hx0 Hm0). unfold Py.setitem at 1.
  rewrite decide_True by assumption. simpl.
  rewrite (step_odd _ _ _ _ _ Hx1 Hm1).
  rewrite (getitem_Some _ _ m0), bind_Ok
    by (apply list_lookup_insert_eq; assumption).
  unfold Py.setitem. rewrite decide_True by (rewrite length_insert; assumption).
  simpl. rewrite list_insert_insert_eq.
  rewrite packed_word by eauto using voltage_to_mu_bounds. reflexivity.
Qed.

(** The loop over an even number of samples, started at slot [j]: the slots
    from [j] on receive the packed pairs and the others are left alone. *)
Lemma pack_loop voltage mus :
  ∀ j data,
    Nat.Even (length mus) →
    (∀ i m, mus !! i = Some m →
       ∃ x, voltage !! (2 * j + i)%nat = Some x ∧ voltage_to_mu x = Ok m) →
    (j + length mus / 2 ≤ length data)%nat →
    Py.for_in (seq (2 * j) (length mus)) (voltage_group_step voltage) data
    = Ok (take j data ++ (Int32.wrap <$> pack_group mus)
            ++ drop (j + length mus / 2) data).
Proof.
  induction mus as [|m|m0 m1 rest IH] using pair_ind; intros j data Heven Hmus Hlen.
  - simpl. rewrite Nat.add_0_r, take_drop. reflexivity.
  - destruct Heven as [k Hk]. simpl in Hk. lia.
  - destruct (Hmus 0%nat m0 eq_refl) as (x0 & Hx0 & Hm0).
    destruct (Hmus 1%nat m1 eq_refl) as (x1 & Hx1 & Hm1).
    rewrite Nat.add_0_r in Hx0.
    cbn [length] in *. rewrite half_succ_succ in *.
    change (seq (2 * j) (S (S (length rest))))
      with ([(2 * j)%nat; S (2 * j)] ++ seq (S (S (2 * j))) (length rest)).
    rewrite for_in_app.
    replace (S (2 * j)) with (2 * j + 1)%nat at 1 by lia.
    rewrite (step_pair voltage data j x0 x1 m0 m1) by first [assumption|lia].
    rewrite bind_Ok.
    replace (S (S (2 * j))) with (2 * S j)%nat by lia.
    rewrite IH.
    + rewrite (take_S_r _ _ (Int32.wrap (group_word m0 m1)))
        by (apply list_lookup_insert_eq; lia).
      rewrite take_insert_ge by lia. rewrite drop_insert_lt by lia.
      rewrite <- app_assoc.
      replace (S j + length rest / 2)%nat with (j + S (length rest / 2))%nat by lia.
      reflexivity.
    + destruct Heven as [k Hk]. exists (k - 1)%nat. lia.
    + intros i m Hi. destruct (Hmus (S (S i)) m Hi) as (x & Hx & Hm).
      exists x. split; [|assumption]. rewrite <- Hx. f_equal. lia.
    + rewrite length_insert. lia.
Qed.

Lemma pack_group_length mus :
  length (pack_group mus) = ((length mus + 1) / 2)%nat.
Proof.
  induction mus as [|m|m0 m1 rest IH] using pair_ind; [reflexivity..|].
  cbn [pack_group length]. rewrite IH.
  replace (S (S (length rest)) + 1)%nat with (S (S (length rest + 1))) by lia.
  rewrite half_succ_succ. reflexivity.
Qed.

Lemma even_half_succ n : Nat.Even n → ((n + 1) / 2 = n / 2)%nat.
Proof.
  intros [k ->]. rewrite (Nat.mul_comm 2 k), Nat.div_mul by lia.
  symmetry. apply (Nat.div_unique _ _ _ 1); lia.
Qed.

(** The list [set_group] allocates before converting. *)
Lemma zeros_length n : length ((λ _, Py.int32 0) <$> Py.range n) = n.
Proof. unfold Py.range. rewrite length_fmap, length_seq. reflexivity. Qed.

(** On an even number of voltages in range, the loop computes the
    specification's [pack_group] of their machine units. *)
Lemma voltage_group_to_mu_even voltage mus :
  Forall2 (λ x m, voltage_to_mu x = Ok m) voltage mus →
  Nat.Even (length voltage) →
  voltage_group_to_mu voltage ((λ _, Py.int32 0) <$> Py.range (length voltage / 2))
  = Ok (Int32.wrap <$> pack_group mus).
Proof.
  intros Hmus Heven. pose proof (Forall2_length _ _ _ Hmus) as Hlen.
  unfold voltage_group_to_mu. unfold Py.range at 1.
  set (data := (λ _, Py.int32 0) <$> _).
  assert (Hdata : length data = (length mus / 2)%nat)
    by (subst data; rewrite zeros_length, Hlen; reflexivity).
  rewrite Hlen in *. change (seq 0) with (seq (2 * 0)).
  rewrite pack_loop.
  - rewrite take_0. rewrite drop_ge by lia. rewrite app_nil_r. reflexivity.
  - assumption.
  - intros i m Hi. simpl.
    destruct (Forall2_lookup_r _ _ _ _ _ Hmus Hi) as (x & Hx & Hm). eauto.
  - lia.
Qed.

Lemma voltage_group_to_mu_pair v0 v1 m0 m1 :
  voltage_to_mu v0 = Ok m0 →
  voltage_to_mu v1 = Ok m1 →
  voltage_group_to_mu [v0; v1] [Py.int32 0] = Ok [Int32.wrap (group_word m0 m1)].
Proof.
  intros H0 H1.
  apply (voltage_group_to_mu_even [v0; v1] [m0; m1]).
  - repeat constructor; assumption.
  - exists 1%nat. reflexivity.
Qed.

(** Given a slot for it, the loop does store an unpaired last sample with an
    empty high half. *)
Lemma voltage_group_to_mu_single v0 m0 slot :
  voltage_to_mu v0 = Ok m0 →
  voltage_group_to_mu [v0] [slot] = Ok [m0] ∧ [m0] = pack_group [m0].
Proof.
  intros H0. unfold voltage_group_to_mu.
  change (Py.range (length [v0])) with [(2 * 0)%nat]. cbn [Py.for_in].
  rewrite (step_even [v0] [slot] 0 v0 m0 eq_refl H0).
  split; [reflexivity|]. cbn [pack_group]. unfold group_word.
  rewrite Z.shiftl_0_l, Z.lor_0_r. reflexivity.
Qed.

(** On an odd number of voltages in range, the last sample has no slot in the
    list [set_group] allocates. *)
Lemma voltage_group_to_mu_odd voltage :
  Nat.Odd (length voltage) →
  Forall (λ x, is_Ok (voltage_to_mu x)) voltage →
  voltage_group_to_mu voltage ((λ _, Py.int32 0) <$> Py.range (length voltage / 2))
  = Raise (IndexError "list assignment index out of range").
Proof.
  intros [k Hk] Hok.
  assert (Hmus : ∃ mus, Forall2 (λ x m, voltage_to_mu x = Ok m) voltage mus).
  { clear Hk. induction Hok as [|x l Hx _ [mus IH]]; [exists []; constructor|].
    destruct (voltage_to_mu x) as [m|] eqn:Hm; [|contradiction].
    exists (m :: mus). constructor; assumption. }
  destruct Hmus as [mus Hmus].
  pose proof (Forall2_length _ _ _ Hmus) as Hlen.
  unfold voltage_group_to_mu. unfold Py.range at 1.
  set (data := (λ _, Py.int32 0) <$> _).
  assert (Hdata : length data = k).
  { subst data. rewrite zeros_length, Hk.
    symmetry. apply (Nat.div_unique _ _ _ 1); lia. }
  rewrite Hk. replace (2 * k + 1)%nat with (S (2 * k)) by lia.
  rewrite seq_S, for_in_app, Nat.add_0_l.
  assert (Htake : length (take (2 * k) mus) = (2 * k)%nat)
    by (rewrite length_take; lia).
  rewrite <- Htake at 1. change (seq 0) with (seq (2 * 0)).
  rewrite pack_loop.
  - rewrite bind_Ok, take_0.
    rewrite drop_ge by (rewrite Htake, Nat.mul_comm, Nat.div_mul; lia).
    rewrite app_nil_r. cbn [Py.for_in app].
    destruct (lookup_lt_is_Some_2 voltage (2 * k)) as [x Hx]; [lia|].
    pose proof (Forall_lookup_1 _ _ _ _ Hok Hx) as Hm. cbv beta in Hm.
    destruct (voltage_to_mu x) as [m|] eqn:Heq; [|contradiction].
    rewrite (step_even _ _ _ _ _ Hx Heq).
    unfold Py.setitem. rewrite decide_False; [reflexivity|].
    rewrite length_fmap, pack_group_length, Htake.
    rewrite even_half_succ by (exists k; reflexivity).
    rewrite Nat.mul_comm, Nat.div_mul; lia.
  - rewrite Htake. exists k. reflexivity.
  - intros i m Hi. simpl. apply lookup_take_Some in Hi as [Hi _].
    destruct (Forall2_lookup_r _ _ _ _ _ Hmus Hi) as (x & Hx & Hm). eauto.
  - rewrite Htake, Nat.mul_comm, Nat.div_mul; lia.
Qed.

(** ** Group writes *)

Lemma set_group_run self dac voltage data st :
  voltage_group_to_mu voltage ((λ _, Py.int32 0) <$> Py.range (length voltage / 2))
  = data →
  set_group self dac voltage st
  = match data with
    | Ok words => set_group_mu self dac words st
    | Raise e => (Raise e, st)
    end.
Proof.
  intros <-. unfold set_group, lift, mbind, kernel_bind.
  destruct (voltage_group_to_mu _ _); reflexivity.
Qed.

(** C3, what the code does on the failing inputs: for every list of an odd
    number of in-range voltages, [set_group] raises [IndexError] while
    converting the last sample and issues no write. *)
Theorem set_group_odd_length self dac voltage st :
  Nat.Odd (length voltage) →
  Forall (λ x, is_Ok (voltage_to_mu x)) voltage →
  set_group self dac voltage st
  = (Raise (IndexError "list assignment index out of range"), st).
Proof.
  intros Hodd Hok.
  rewrite (set_group_run _ _ _ _ _ (voltage_group_to_mu_odd voltage Hodd Hok)).
  reflexivity.
Qed.

Lemma set_group_odd_length_witness :
  Nat.Odd (length [0%float]) ∧
  Forall (λ x, is_Ok (voltage_to_mu x)) [0%float] ∧
  set_group (Build_Fastino 0x300 2 392) 0 [0%float] (Rtio 0 [])
  = (Raise (IndexError "list assignment index out of range"), Rtio 0 []).
Proof.
  assert (Hodd : Nat.Odd (length [0%float])) by (exists 0%nat; reflexivity).
  assert (Hok : Forall (λ x, is_Ok (voltage_to_mu x)) [0%float])
    by (repeat constructor).
  split; [exact Hodd|]. split; [exact Hok|].
  exact (set_group_odd_length (Build_Fastino 0x300 2 392) 0 [0%float] (Rtio 0 [])
           Hodd Hok).
Defined.

(** C4, as the code has it: for an aligned first channel and an even number
    of in-range voltages, [set_group] issues exactly one wide write to
    [channel_base << 8 | first_channel]; its words are the packed pairs, one
    word per pair, so there are [len(voltages) / 2] of them whatever the group
    width is: the driver adds no padding. *)
Theorem set_group_packs ref_period channel_base log2_width self :
  __init__ ref_period channel_base log2_width = Ok self →
  ∀ dac voltage mus st,
    dac mod width self = 0 →
    Forall2 (λ x m, voltage_to_mu x = Ok m) voltage mus →
    Nat.Even (length voltage) →
    set_group self dac voltage st
    = (Ok (), emit (OutputWide (now_mu st) (Z.lor (channel_base ≪ 8) dac)
                      (Int32.wrap <$> pack_group mus)) st) ∧
    length (Int32.wrap <$> pack_group mus) = (length voltage / 2)%nat.
Proof.
  intros Hinit dac voltage mus st Haligned Hmus Heven.
  rewrite (set_group_run _ _ _ _ _ (voltage_group_to_mu_even voltage mus Hmus Heven)).
  pose proof (init_fields _ _ _ _ Hinit) as (Hpos & Hch & Hw).
  split.
  - unfold set_group_mu. rewrite Hw, land_width_mod, <- Hw by assumption.
    rewrite Haligned, Hch. reflexivity.
  - rewrite length_fmap, pack_group_length.
    rewrite <- (Forall2_length _ _ _ Hmus).
    apply even_half_succ. assumption.
Qed.

Lemma set_group_packs_witness :
  let self := {| channel := 0x300; width := 4; t_frame := 392 |} in
  __init__ ns 3 2 = Ok self ∧
  4 mod width self = 0 ∧
  Forall2 (λ x m, voltage_to_mu x = Ok m)
    [1%float; (-1)%float; 0.5%float; 0%float] [36045; 29491; 34406; 32768] ∧
  Nat.Even (length [1%float; (-1)%float; 0.5%float; 0%float]) ∧
  set_group self 4 [1%float; (-1)%float; 0.5%float; 0%float] (Rtio 0 [])
  = (Ok (), Rtio 0 [OutputWide 0 0x304 [1932758221; -2147449242]]).
Proof.
  intros self.
  assert (Hinit : __init__ ns 3 2 = Ok self) by (vm_compute; reflexivity).
  assert (Ha : 4 mod width self = 0) by reflexivity.
  assert (Hmus : Forall2 (λ x m, voltage_to_mu x = Ok m)
            [1%float; (-1)%float; 0.5%float; 0%float] [36045; 29491; 34406; 32768])
    by (repeat constructor; vm_compute; reflexivity).
  assert (Heven : Nat.Even (length [1%float; (-1)%float; 0.5%float; 0%float]))
    by (exists 2%nat; reflexivity).
  split; [exact Hinit|]. split; [exact Ha|]. split; [exact Hmus|].
  split; [exact Heven|].
  exact (proj1 (set_group_packs ns 3 2 self Hinit 4 _ _ (Rtio 0 []) Ha Hmus Heven)).
Defined.

(** C4 as stated fails: on a device of width 4 a write of two voltages
    carries one word, not [width / 2 = 2] words with zero fill, and the
    three-voltage write of the example raises instead of writing. *)
Lemma set_group_not_zero_filled :
  let self := {| channel := 0x300; width := 4; t_frame := 392 |} in
  __init__ ns 3 2 = Ok self ∧
  set_group self 0 [1%float; (-1)%float] (Rtio 0 [])
  = (Ok (), Rtio 0 [OutputWide 0 0x300 [1932758221]]) ∧
  Z.of_nat (length [1932758221]) ≠ width self / 2 ∧
  set_group self 0 [1%float; (-1)%float; 0.5%float] (Rtio 0 [])
  = (Raise (IndexError "list assignment index out of range"), Rtio 0 []).
Proof. vm_compute. repeat split. discriminate. Qed.

(** ** Validation comes before the write *)

(** C8: each operation that can fail (a voltage out of range, a rate out of
    range, a misaligned group, a field out of range) raises before anything
    is written: it either raises with the timeline untouched or returns
    having issued exactly its one intended write. *)
Theorem validation_precedes_writes self st :
  (∀ dac voltage,
     all_or_nothing st
       (λ ev, ∃ data, voltage_to_mu voltage = Ok data ∧
                ev = Output (now_mu st) (Z.lor (channel self) dac) data)
       (set_dac self dac voltage st)) ∧
  (∀ dac data,
     all_or_nothing st
       (λ ev, Z.land dac (width self - 1) = 0 ∧
                ev = OutputWide (now_mu st) (Z.lor (channel self) dac) data)
       (set_group_mu self dac data st)) ∧
  (∀ dac voltage,
     all_or_nothing st
       (λ ev, ∃ data,
                voltage_group_to_mu voltage
                  ((λ _, Py.int32 0) <$> Py.range (length voltage / 2)) = Ok data ∧
                Z.land dac (width self - 1) = 0 ∧
                ev = OutputWide (now_mu st) (Z.lor (channel self) dac) data)
       (set_group self dac voltage st)) ∧
  (∀ rate_mantissa rate_exponent gain_exponent,
     all_or_nothing st
       (λ ev, (0 <= rate_mantissa < 64 ∧ 0 <= rate_exponent < 16 ∧
                 0 <= gain_exponent < 64) ∧
                ev = Output (now_mu st) (Z.lor (channel self) 0x26)
                       (Z.lor (Z.lor rate_mantissa (rate_exponent ≪ 6))
                              (gain_exponent ≪ 10)))
       (stage_cic_mu self rate_mantissa rate_exponent gain_exponent st)) ∧
  (∀ rate,
     all_or_nothing st
       (λ ev, 1 <= rate <= 65536 ∧
                ∃ config, ev = Output (now_mu st) (Z.lor (channel self) 0x26) config)
       (stage_cic self rate st)).
Proof.
  assert (Hgroup_mu : ∀ dac data,
     all_or_nothing st
       (λ ev, Z.land dac (width self - 1) = 0 ∧
                ev = OutputWide (now_mu st) (Z.lor (channel self) dac) data)
       (set_group_mu self dac data st)).
  { intros dac data. unfold set_group_mu.
    destruct (Z.eqb_spec (Z.land dac (width self - 1)) 0) as [Heq|Hne]; simpl.
    - eexists. split; [split; [assumption|reflexivity]|reflexivity].
    - reflexivity. }
  split; [|split; [exact Hgroup_mu|split; [|split]]].
  - intros dac voltage. unfold set_dac, lift, mbind, kernel_bind.
    destruct (voltage_to_mu voltage) as [data|e]; simpl; [|reflexivity].
    eexists. split; [exists data; split; reflexivity|reflexivity].
  - intros dac voltage.
    rewrite (set_group_run self dac voltage _ st eq_refl).
    destruct (voltage_group_to_mu _ _) as [data|e]; simpl; [|reflexivity].
    specialize (Hgroup_mu dac data).
    destruct (set_group_mu self dac data st) as [[[]|e] st']; simpl in *;
      [|assumption].
    destruct Hgroup_mu as (ev & [Ha ->] & ->). eauto 8.
  - intros m e g.
    destruct (decide (0 <= m < 64 ∧ 0 <= e < 16 ∧ 0 <= g < 64)) as [Hok|Hbad].
    + rewrite stage_cic_mu_run by lia. simpl. eauto 8.
    + unfold stage_cic_mu. change (1 ≪ 6) with 64. change (1 ≪ 4) with 16.
      repeat match goal with
      | |- context [?a <? ?b] => destruct (Z.ltb_spec a b); try lia
      | |- context [?a >=? ?b] => rewrite (Z.geb_leb a b);
          destruct (Z.leb_spec b a); try lia
      end; reflexivity.
  - intros rate.
    destruct (Z.le_gt_cases rate 0);
      [rewrite stage_cic_rejects by lia; reflexivity|].
    destruct (Z.le_gt_cases rate 65536);
      [|rewrite stage_cic_rejects by lia; reflexivity].
    pose proof (stage_cic_run self rate st ltac:(lia)) as Hrun.
    destruct (stage_cic_locals rate) as [[m e] g]. rewrite Hrun. simpl.
    eexists. split; [split; [lia|eexists; reflexivity]|reflexivity].
Qed.

(** * Further properties of the driver *)

(** ** Interpolation rates *)

Lemma stage_cic_Ok_inv self rate st achieved_rate :
  (stage_cic self rate st).1 = Ok achieved_rate →
  1 <= rate <= 65536 ∧
  achieved_rate = (stage_cic_locals rate).1.1 ≪ (stage_cic_locals rate).1.2.
Proof.
  intros Hok.
  destruct (Z.le_gt_cases rate 0);
    [rewrite stage_cic_rejects in Hok by lia; discriminate|].
  destruct (Z.le_gt_cases rate 65536);
    [|rewrite stage_cic_rejects in Hok by lia; discriminate].
  split; [lia|].
  pose proof (stage_cic_run self rate st ltac:(lia)) as Hrun.
  destruct (stage_cic_locals rate) as [[m e] g].
  rewrite Hrun in Hok. simpl in *. congruence.
Qed.

(** Once the mantissa loop has shifted, the mantissa it leaves is at least
    32: the upper half of the mantissa range is always used. *)
Lemma stage_cic_locals_shape rate :
  1 <= rate <= 65536 →
  let '(rate_mantissa, rate_exponent, gain_exponent) := stage_cic_locals rate in
  (0 < rate_exponent → 32 <= rate_mantissa) ∧
  gain_exponent = gain_loop (rate_mantissa ^ 3) 0 + 3 * rate_exponent.
Proof.
  intros Hrate. unfold stage_cic_locals.
  pose proof (rate_loop_spec rate 0 ltac:(lia)) as (He & Hm & Heq & Hprev).
  destruct (rate_loop rate 0) as [m e]. simpl in *.
  rewrite Z.sub_0_r in *. rewrite cic_gain_cube. unfold order.
  split; [|reflexivity].
  intros Hpos. specialize (Hprev Hpos).
  assert (Hsplit : rate / 2 ^ e = rate / 2 ^ (e - 1) / 2).
  { rewrite Z.div_div by (try apply Z.pow_pos_nonneg; lia).
    rewrite Z.mul_comm, <- Z.pow_succ_r by lia. do 2 f_equal. lia. }
  rewrite Heq, Hsplit. apply Z.div_le_lower_bound; lia.
Qed.

(** The rate [stage_cic] settles on is the best one available: it is
    representable, at most the requested rate, and no representable rate lies
    between the two. *)
Lemma stage_cic_locals_optimal rate :
  1 <= rate <= 65536 →
  let achieved_rate := (stage_cic_locals rate).1.1 ≪ (stage_cic_locals rate).1.2 in
  representable achieved_rate ∧
  1 <= achieved_rate <= rate ∧
  ∀ r, representable r → r <= rate → r <= achieved_rate.
Proof.
  intros Hrate.
  pose proof (stage_cic_locals_spec rate Hrate) as Hspec.
  pose proof (stage_cic_locals_shape rate Hrate) as Hshape.
  destruct (stage_cic_locals rate) as [[m e] g]. simpl.
  destruct Hspec as (Hm & He & _ & Hlo & Hhi). destruct Hshape as (Hhigh & _).
  rewrite Z.shiftl_mul_pow2 by lia.
  assert (Hpow : 0 < 2 ^ e) by (apply Z.pow_pos_nonneg; lia).
  split; [exists m, e; repeat split; lia|]. split; [nia|].
  intros r (m2 & e2 & Hm2 & He2 & ->) Hle.
  assert (Hpow2 : 0 < 2 ^ e2) by (apply Z.pow_pos_nonneg; lia).
  destruct (Z.le_gt_cases e e2) as [Hee|Hee].
  - assert (Hfactor : 2 ^ e2 = 2 ^ (e2 - e) * 2 ^ e)
      by (rewrite <- Z.pow_add_r by lia; f_equal; lia).
    assert (0 < 2 ^ (e2 - e)) by (apply Z.pow_pos_nonneg; lia).
    rewrite Hfactor, Z.mul_assoc in *.
    set (q := m2 * 2 ^ (e2 - e)) in *.
    assert (q < m + 1)
      by (apply (Z.mul_lt_mono_pos_r (2 ^ e)); lia).
    apply Z.mul_le_mono_nonneg_r; lia.
  - specialize (Hhigh ltac:(lia)).
    assert (Hfactor : 2 ^ e = 2 * 2 ^ (e - e2 - 1) * 2 ^ e2).
    { rewrite <- Z.pow_succ_r, <- Z.pow_add_r by lia. f_equal. lia. }
    assert (1 <= 2 ^ (e - e2 - 1))
      by (apply (Z.pow_le_mono_r 2 0); lia).
    rewrite Hfactor, Z.mul_assoc.
    apply Z.mul_le_mono_nonneg_r; [lia|]. nia.
Qed.

Lemma stage_cic_Ok self rate st :
  1 <= rate <= 65536 →
  (stage_cic self rate st).1
  = Ok ((stage_cic_locals rate).1.1 ≪ (stage_cic_locals rate).1.2).
Proof.
  intros Hrate. pose proof (stage_cic_run self rate st Hrate) as Hrun.
  destruct (stage_cic_locals rate) as [[m e] g]. rewrite Hrun. reflexivity.
Qed.

(** X1: whenever [stage_cic] returns, the rate it returns is the largest
    representable rate (a mantissa from 1 to 64 times a power of two) that
    does not exceed the requested one. *)
Theorem stage_cic_largest_representable self rate st achieved_rate :
  (stage_cic self rate st).1 = Ok achieved_rate →
  representable achieved_rate ∧
  achieved_rate <= rate ∧
  ∀ r, representable r → r <= rate → r <= achieved_rate.
Proof.
  intros Hok. apply stage_cic_Ok_inv in Hok as [Hrate ->].
  pose proof (stage_cic_locals_optimal rate Hrate) as (Hrep & Hle & Hbest).
  repeat split; [exact Hrep|lia|exact Hbest].
Qed.

Lemma stage_cic_largest_representable_witness :
  (stage_cic (Build_Fastino 0x300 1 392) 1000 (Rtio 0 [])).1 = Ok 992 ∧
  representable 992 ∧
  992 <= 1000 ∧
  ∀ r, representable r → r <= 1000 → r <= 992.
Proof.
  assert (Hok : (stage_cic (Build_Fastino 0x300 1 392) 1000 (Rtio 0 [])).1 = Ok 992)
    by (vm_compute; reflexivity).
  split; [exact Hok|].
  exact (stage_cic_largest_representable _ _ _ _ Hok).
Defined.

(** X2: an accepted rate comes back unchanged exactly when it is
    representable; every other rate is rounded down. *)
Theorem stage_cic_exact_iff self rate st :
  1 <= rate <= 65536 →
  ((stage_cic self rate st).1 = Ok rate ↔ representable rate).
Proof.
  intros Hrate.
  pose proof (stage_cic_locals_optimal rate Hrate) as (Hrep & Hle & Hbest).
  rewrite stage_cic_Ok by assumption. split.
  - intros [= Heq]. rewrite Heq in Hrep. exact Hrep.
  - intros Hrate_rep. f_equal.
    specialize (Hbest rate Hrate_rep ltac:(lia)). lia.
Qed.

Lemma stage_cic_exact_iff_witness :
  1 <= 96 <= 65536 ∧
  ((stage_cic (Build_Fastino 0x300 1 392) 96 (Rtio 0 [])).1 = Ok 96
   ↔ representable 96).
Proof.
  assert (Hrate : 1 <= 96 <= 65536) by lia.
  split; [exact Hrate|].
  exact (stage_cic_exact_iff (Build_Fastino 0x300 1 392) 96 (Rtio 0 []) Hrate).
Defined.

(** X3: staging a rate that [stage_cic] has returned gives that rate back:
    the quantisation is idempotent. *)
Theorem stage_cic_idempotent self rate st st' achieved_rate :
  (stage_cic self rate st).1 = Ok achieved_rate →
  (stage_cic self achieved_rate st').1 = Ok achieved_rate.
Proof.
  intros Hok. apply stage_cic_Ok_inv in Hok as [Hrate ->].
  pose proof (stage_cic_locals_optimal rate Hrate) as (Hrep & Hle & _).
  set (a := _ ≪ _) in *.
  assert (Ha : 1 <= a <= 65536) by lia.
  pose proof (stage_cic_locals_optimal a Ha) as (_ & Hle' & Hbest).
  rewrite stage_cic_Ok by assumption. f_equal.
  specialize (Hbest a Hrep ltac:(lia)). lia.
Qed.

Lemma stage_cic_idempotent_witness :
  (stage_cic (Build_Fastino 0x300 1 392) 1000 (Rtio 0 [])).1 = Ok 992 ∧
  (stage_cic (Build_Fastino 0x300 1 392) 992 (Rtio 5 [])).1 = Ok 992.
Proof.
  assert (Hok : (stage_cic (Build_Fastino 0x300 1 392) 1000 (Rtio 0 [])).1 = Ok 992)
    by (vm_compute; reflexivity).
  split; [exact Hok|].
  exact (stage_cic_idempotent _ _ _ (Rtio 5 []) _ Hok).
Defined.

(** X4: [stage_cic] is monotone: a larger request never yields a smaller
    rate. *)
Theorem stage_cic_monotone self rate1 rate2 st1 st2 achieved1 achieved2 :
  (stage_cic self rate1 st1).1 = Ok achieved1 →
  (stage_cic self rate2 st2).1 = Ok achieved2 →
  rate1 <= rate2 →
  achieved1 <= achieved2.
Proof.
  intros Hok1 Hok2 Hle.
  apply stage_cic_Ok_inv in Hok1 as [Hrate1 ->].
  apply stage_cic_Ok_inv in Hok2 as [Hrate2 ->].
  pose proof (stage_cic_locals_optimal rate1 Hrate1) as (Hrep1 & Hle1 & _).
  pose proof (stage_cic_locals_optimal rate2 Hrate2) as (_ & _ & Hbest2).
  apply Hbest2; [exact Hrep1|lia].
Qed.

Lemma stage_cic_monotone_witness :
  (stage_cic (Build_Fastino 0x300 1 392) 1000 (Rtio 0 [])).1 = Ok 992 ∧
  (stage_cic (Build_Fastino 0x300 1 392) 1030 (Rtio 0 [])).1 = Ok 1024 ∧
  1000 <= 1030 ∧
  992 <= 1024.
Proof.
  assert (H1 : (stage_cic (Build_Fastino 0x300 1 392) 1000 (Rtio 0 [])).1 = Ok 992)
    by (vm_compute; reflexivity).
  assert (H2 : (stage_cic (Build_Fastino 0x300 1 392) 1030 (Rtio 0 [])).1 = Ok 1024)
    by (vm_compute; reflexivity).
  assert (Hle : 1000 <= 1030) by lia.
  split; [exact H1|]. split; [exact H2|]. split; [exact Hle|].
  exact (stage_cic_monotone _ _ _ _ _ _ _ H1 H2 Hle).
Defined.

(** ** The staged configuration word *)

Lemma stage_cic_mu_rejects self rate_mantissa rate_exponent gain_exponent st :
  ¬ (0 <= rate_mantissa < 64 ∧ 0 <= rate_exponent < 16 ∧ 0 <= gain_exponent < 64) →
  ∃ msg,
    stage_cic_mu self rate_mantissa rate_exponent gain_exponent st
    = (Raise (ValueError msg), st).
Proof.
  intros Hbad. unfold stage_cic_mu.
  change (1 ≪ 6) with 64. change (1 ≪ 4) with 16.
  repeat match goal with
  | |- context [?a <? ?b] => destruct (Z.ltb_spec a b); try lia
  | |- context [?a >=? ?b] => rewrite (Z.geb_leb a b);
      destruct (Z.leb_spec b a); try lia
  end; eexists; reflexivity.
Qed.

Lemma cic_config_range rate_mantissa rate_exponent gain_exponent :
  0 <= rate_mantissa < 64 →
  0 <= rate_exponent < 16 →
  0 <= gain_exponent < 64 →
  0 <= Z.lor (Z.lor rate_mantissa (rate_exponent ≪ 6)) (gain_exponent ≪ 10) < 2 ^ 16.
Proof.
  intros Hm He Hg.
  rewrite (lor_shiftl_add rate_mantissa) by (change (2 ^ 6) with 64; lia).
  rewrite lor_shiftl_add by (change (2 ^ 6) with 64; change (2 ^ 10) with 1024; lia).
  change (2 ^ 6) with 64. change (2 ^ 10) with 1024. change (2 ^ 16) with 65536.
  lia.
Qed.

(** X5: [stage_cic_mu] accepts exactly the fields that fit (6, 4 and 6 bits),
    and the word it then writes to offset 0x26 is a 16-bit value from which
    each field can be read back. *)
Theorem stage_cic_mu_round_trip self rate_mantissa rate_exponent gain_exponent st :
  ((stage_cic_mu self rate_mantissa rate_exponent gain_exponent st).1 = Ok ()
   ↔ 0 <= rate_mantissa < 64 ∧ 0 <= rate_exponent < 16 ∧ 0 <= gain_exponent < 64) ∧
  ((stage_cic_mu self rate_mantissa rate_exponent gain_exponent st).1 = Ok () →
   ∃ config,
     (stage_cic_mu self rate_mantissa rate_exponent gain_exponent st).2
     = emit (Output (now_mu st) (Z.lor (channel self) 0x26) config) st ∧
     0 <= config < 2 ^ 16 ∧
     config mod 64 = rate_mantissa ∧
     (config ≫ 6) mod 16 = rate_exponent ∧
     config ≫ 10 = gain_exponent).
Proof.
  assert (Hiff : (stage_cic_mu self rate_mantissa rate_exponent gain_exponent st).1
                 = Ok ()
            ↔ 0 <= rate_mantissa < 64 ∧ 0 <= rate_exponent < 16 ∧
              0 <= gain_exponent < 64).
  { split.
    - intros Hok.
      destruct (decide (0 <= rate_mantissa < 64 ∧ 0 <= rate_exponent < 16 ∧
                        0 <= gain_exponent < 64)) as [Hin|Hout]; [exact Hin|].
      destruct (stage_cic_mu_rejects self _ _ _ st Hout) as [msg Hraise].
      rewrite Hraise in Hok. discriminate.
    - intros (Hm & He & Hg). rewrite stage_cic_mu_run by assumption. reflexivity. }
  split; [exact Hiff|].
  intros Hok. apply Hiff in Hok as (Hm & He & Hg).
  rewrite stage_cic_mu_run by assumption. eexists. split; [reflexivity|].
  split; [apply cic_config_range; assumption|].
  apply cic_config_fields; lia.
Qed.

Lemma stage_cic_mu_round_trip_witness :
  (stage_cic_mu (Build_Fastino 0x300 1 392) 61 4 30 (Rtio 0 [])).1 = Ok () ∧
  ∃ config,
    (stage_cic_mu (Build_Fastino 0x300 1 392) 61 4 30 (Rtio 0 [])).2
    = emit (Output 0 0x326 config) (Rtio 0 []) ∧
    0 <= config < 2 ^ 16 ∧
    config mod 64 = 61 ∧
    (config ≫ 6) mod 16 = 4 ∧
    config ≫ 10 = 30.
Proof.
  assert (Hok : (stage_cic_mu (Build_Fastino 0x300 1 392) 61 4 30 (Rtio 0 [])).1
                = Ok ()) by reflexivity.
  split; [exact Hok|].
  exact (proj2 (stage_cic_mu_round_trip (Build_Fastino 0x300 1 392) 61 4 30
                  (Rtio 0 [])) Hok).
Defined.

(** X6: the rate [stage_cic] returns is the one its staged word encodes,
    [(rate_mantissa + 1) << rate_exponent] of the fields at offset 0x26. *)
Theorem stage_cic_returns_staged_rate self rate st :
  1 <= rate <= 65536 →
  ∃ config,
    stage_cic self rate st
    = (Ok ((config mod 64 + 1) ≪ ((config ≫ 6) mod 16)),
       emit (Output (now_mu st) (Z.lor (channel self) 0x26) config) st) ∧
    0 <= config < 2 ^ 16.
Proof.
  intros Hrate.
  pose proof (stage_cic_run self rate st Hrate) as Hrun.
  pose proof (stage_cic_locals_spec rate Hrate) as Hspec.
  destruct (stage_cic_locals rate) as [[m e] g].
  destruct Hspec as (Hm & He & Hg & _).
  eexists. split.
  - rewrite Hrun. f_equal. f_equal.
    destruct (cic_config_fields (m - 1) e g) as (-> & -> & _); try lia.
    f_equal. lia.
  - apply cic_config_range; lia.
Qed.

Lemma stage_cic_returns_staged_rate_witness :
  1 <= 1000 <= 65536 ∧
  ∃ config,
    stage_cic (Build_Fastino 0x300 1 392) 1000 (Rtio 0 [])
    = (Ok ((config mod 64 + 1) ≪ ((config ≫ 6) mod 16)),
       emit (Output 0 0x326 config) (Rtio 0 [])) ∧
    0 <= config < 2 ^ 16.
Proof.
  assert (Hrate : 1 <= 1000 <= 65536) by lia.
  split; [exact Hrate|].
  exact (stage_cic_returns_staged_rate (Build_Fastino 0x300 1 392) 1000 (Rtio 0 []) Hrate).
Defined.

(** X7: gain compensation.  With [g] the gain exponent [stage_cic] stages and
    [a] the rate it returns, [a^3 <= 2^g < 2 * a^3]: the compensated gain
    [a^3 / 2^g] lies in (1/2, 1], and it is exactly 1 just when [a] is a
    power of two. *)
Theorem stage_cic_gain_compensation self rate st :
  1 <= rate <= 65536 →
  ∃ achieved_rate config,
    stage_cic self rate st
    = (Ok achieved_rate,
       emit (Output (now_mu st) (Z.lor (channel self) 0x26) config) st) ∧
    let g := config ≫ 10 in
    achieved_rate ^ 3 <= 2 ^ g < 2 * achieved_rate ^ 3 ∧
    (achieved_rate ^ 3 = 2 ^ g ↔ ∃ k, 0 <= k ∧ achieved_rate = 2 ^ k).
Proof.
  intros Hrate.
  pose proof (stage_cic_run self rate st Hrate) as Hrun.
  pose proof (stage_cic_locals_spec rate Hrate) as Hspec.
  pose proof (stage_cic_locals_shape rate Hrate) as Hshape.
  destruct (stage_cic_locals rate) as [[m e] g].
  destruct Hspec as (Hm & He & Hg & _). destruct Hshape as (_ & Hgain).
  exists (m ≪ e). eexists. split; [exact Hrun|].
  destruct (cic_config_fields (m - 1) e g) as (_ & _ & ->); try lia.
  cbv zeta. rewrite Z.shiftl_mul_pow2 by lia.
  destruct (gain_loop_spec (m ^ 3) 0 ltac:(lia)) as (Hg0 & Hup & Hlow).
  set (g0 := gain_loop (m ^ 3) 0) in *.
  assert (Hpe : 0 < 2 ^ (3 * e)) by (apply Z.pow_pos_nonneg; lia).
  assert (Hcube : (m * 2 ^ e) ^ 3 = m ^ 3 * 2 ^ (3 * e)).
  { rewrite Z.pow_mul_l, <- Z.pow_mul_r by lia. do 2 f_equal. lia. }
  assert (Hm3 : 1 <= m ^ 3) by (change 1 with (1 ^ 3); apply Z.pow_le_mono_l; lia).
  assert (Hbounds : (m * 2 ^ e) ^ 3 <= 2 ^ g < 2 * (m * 2 ^ e) ^ 3).
  { rewrite Hcube, Hgain, Z.pow_add_r by lia. split.
    - apply Z.mul_le_mono_nonneg_r; lia.
    - rewrite Z.mul_assoc. apply Z.mul_lt_mono_pos_r; [lia|].
      destruct (Z.eq_dec g0 0) as [Hzero|Hnonzero].
      + rewrite Hzero. simpl. lia.
      + destruct Hlow as [Hzero|Hlow]; [contradiction|].
        replace g0 with (Z.succ (g0 - 1)) by lia.
        rewrite Z.pow_succ_r; lia. }
  split; [exact Hbounds|].
  set (a := m * 2 ^ e) in *.
  assert (Ha : 1 <= a) by (subst a; assert (0 < 2 ^ e) by (apply Z.pow_pos_nonneg; lia); nia).
  split.
  - intros Heq.
    destruct (Zdivide_power_2 a 2 g) as [k Hk]; try lia; [apply prime_alt, Z.prime_2| |].
    + exists (a ^ 2). rewrite <- Heq.
      replace 3 with (Z.succ 2) by lia. rewrite Z.pow_succ_r; lia.
    + exists k. split; [|exact Hk].
      destruct (Z.lt_ge_cases k 0) as [Hneg|Hpos]; [|exact Hpos].
      rewrite Z.pow_neg_r in Hk by assumption. lia.
  - intros (k & Hk & Hak). rewrite Hak in *.
    rewrite <- Z.pow_mul_r in * by lia.
    assert (Hlt : 2 ^ g < 2 ^ (Z.succ (k * 3)))
      by (rewrite Z.pow_succ_r; lia).
    apply Z.pow_lt_mono_r_iff in Hlt; [|lia..].
    destruct Hbounds as [Hle _].
    apply Z.pow_le_mono_r_iff in Hle; [|lia..].
    f_equal. lia.
Qed.

Lemma stage_cic_gain_compensation_witness :
  1 <= 1000 <= 65536 ∧
  ∃ achieved_rate config,
    stage_cic (Build_Fastino 0x300 1 392) 1000 (Rtio 0 [])
    = (Ok achieved_rate, emit (Output 0 0x326 config) (Rtio 0 [])) ∧
    let g := config ≫ 10 in
    achieved_rate ^ 3 <= 2 ^ g < 2 * achieved_rate ^ 3 ∧
    (achieved_rate ^ 3 = 2 ^ g ↔ ∃ k, 0 <= k ∧ achieved_rate = 2 ^ k).
Proof.
  assert (Hrate : 1 <= 1000 <= 65536) by lia.
  split; [exact Hrate|].
  exact (stage_cic_gain_compensation (Build_Fastino 0x300 1 392) 1000 (Rtio 0 []) Hrate).
Defined.

(** ** Packing into a caller's list *)

Lemma pack_group_snoc mus m :
  Nat.Even (length mus) →
  pack_group (mus ++ [m]) = pack_group mus ++ [group_word m 0].
Proof.
  induction mus as [|m0|m0 m1 rest IH] using pair_ind; intros Heven.
  - reflexivity.
  - destruct Heven as [k Hk]. simpl in Hk. lia.
  - cbn [app pack_group]. rewrite IH; [reflexivity|].
    destruct Heven as [k Hk]. exists (k - 1)%nat. simpl in Hk. lia.
Qed.

Lemma group_word_alone m : group_word m 0 = m.
Proof. unfold group_word. rewrite Z.shiftl_0_l. apply Z.lor_0_r. Qed.

Lemma odd_half_succ k : ((2 * k + 1 + 1) / 2 = S k)%nat.
Proof.
  replace (2 * k + 1 + 1)%nat with (S k * 2)%nat by lia.
  apply Nat.div_mul. lia.
Qed.

(** The loop over the first [length mus] samples, any number of them, in a
    list that has a slot for every started pair: those slots receive the
    packed samples and the rest of the list is left as it was. *)
Lemma pack_prefix voltage mus data :
  (∀ i m, mus !! i = Some m →
     ∃ x, voltage !! i = Some x ∧ voltage_to_mu x = Ok m) →
  ((length mus + 1) / 2 ≤ length data)%nat →
  Py.for_in (seq 0 (length mus)) (voltage_group_step voltage) data
  = Ok ((Int32.wrap <$> pack_group mus) ++ drop ((length mus + 1) / 2) data).
Proof.
  intros Hmus Hlen.
  destruct (Nat.Even_or_Odd (length mus)) as [Heven|[k Hk]].
  - rewrite even_half_succ in * by assumption.
    change (seq 0) with (seq (2 * 0)).
    rewrite pack_loop; [rewrite take_0; reflexivity|assumption| |lia].
    intros i m Hi. exact (Hmus i m Hi).
  - rewrite Hk, odd_half_succ in *.
    destruct (lookup_lt_is_Some_2 mus (2 * k)) as [m Hm]; [lia|].
    destruct (Hmus _ _ Hm) as (x & Hx & Hxm).
    assert (Hsplit : mus = take (2 * k) mus ++ [m]).
    { rewrite <- (take_S_r _ _ _ Hm), take_ge by lia. reflexivity. }
    assert (Htake : length (take (2 * k) mus) = (2 * k)%nat)
      by (rewrite length_take; lia).
    assert (Heven : Nat.Even (length (take (2 * k) mus)))
      by (rewrite Htake; exists k; reflexivity).
    replace (2 * k + 1)%nat with (S (2 * k)) by lia.
    rewrite seq_S, for_in_app, Nat.add_0_l.
    rewrite <- Htake at 1. change (seq 0) with (seq (2 * 0)).
    rewrite pack_loop; [|exact Heven| |].
    + rewrite bind_Ok, take_0, Htake, Nat.mul_comm, Nat.div_mul by lia.
      cbn [app Py.for_in]. rewrite Nat.mul_comm.
      rewrite (step_even _ _ _ _ _ Hx Hxm).
      assert (Hpacked : length (Int32.wrap <$> pack_group (take (2 * k) mus)) = k).
      { rewrite length_fmap, pack_group_length, even_half_succ, Htake by assumption.
        rewrite Nat.mul_comm. apply Nat.div_mul. lia. }
      destruct (lookup_lt_is_Some_2 data k) as [d Hd]; [lia|].
      unfold Py.setitem.
      rewrite decide_True by (rewrite length_app, Hpacked, length_drop; lia).
      rewrite insert_app_r_alt by lia.
      rewrite Hpacked, Nat.sub_diag, Nat.add_0_l, (drop_S _ _ _ Hd).
      cbn [insert list_insert].
      rewrite Hsplit at 2. rewrite pack_group_snoc, fmap_app by assumption.
      rewrite <- app_assoc. cbn [fmap list_fmap app].
      rewrite group_word_alone, wrap_id; [reflexivity|].
      apply voltage_to_mu_bounds in Hxm. int32_range.
    + intros i m' Hi. apply lookup_take_Some in Hi as [Hi _].
      exact (Hmus i m' Hi).
    + rewrite Htake, Nat.mul_comm, Nat.div_mul; lia.
Qed.

Lemma converted_units voltage :
  Forall (λ x, is_Ok (voltage_to_mu x)) voltage →
  ∃ mus, Forall2 (λ x m, voltage_to_mu x = Ok m) voltage mus.
Proof.
  induction 1 as [|x l Hx _ [mus IH]]; [exists []; constructor|].
  destruct (voltage_to_mu x) as [m|] eqn:Hm; [|contradiction].
  exists (m :: mus). constructor; assumption.
Qed.

(** X8: [voltage_group_to_mu] on a list with a slot for every started pair
    (a last unpaired sample included): the leading slots receive the packed
    samples, an unpaired last sample with an empty high half, whatever the
    slots held before, and the slots behind them are left untouched. *)
Theorem voltage_group_to_mu_fills voltage mus data :
  Forall2 (λ x m, voltage_to_mu x = Ok m) voltage mus →
  ((length voltage + 1) / 2 ≤ length data)%nat →
  voltage_group_to_mu voltage data
  = Ok ((Int32.wrap <$> pack_group mus)
          ++ drop ((length voltage + 1) / 2) data).
Proof.
  intros Hmus Hlen. pose proof (Forall2_length _ _ _ Hmus) as Hn.
  unfold voltage_group_to_mu, Py.range. rewrite Hn in *.
  apply pack_prefix; [|assumption].
  intros i m Hi.
  destruct (Forall2_lookup_r _ _ _ _ _ Hmus Hi) as (x & Hx & Hm). eauto.
Qed.

Lemma voltage_group_to_mu_fills_witness :
  Forall2 (λ x m, voltage_to_mu x = Ok m)
    [1%float; (-1)%float; 0.5%float] [36045; 29491; 34406] ∧
  ((length [1%float; (-1)%float; 0.5%float] + 1) / 2 ≤ length [7; 8; 9])%nat ∧
  voltage_group_to_mu [1%float; (-1)%float; 0.5%float] [7; 8; 9]
  = Ok [1932758221; 34406; 9].
Proof.
  assert (Hmus : Forall2 (λ x m, voltage_to_mu x = Ok m)
            [1%float; (-1)%float; 0.5%float] [36045; 29491; 34406])
    by (repeat constructor; vm_compute; reflexivity).
  assert (Hlen : ((length [1%float; (-1)%float; 0.5%float] + 1) / 2
                  ≤ length [7; 8; 9])%nat) by (vm_compute; lia).
  split; [exact Hmus|]. split; [exact Hlen|].
  exact (voltage_group_to_mu_fills _ _ [7; 8; 9] Hmus Hlen).
Defined.

Lemma voltage_group_to_mu_no_slot voltage data :
  Forall (λ x, is_Ok (voltage_to_mu x)) voltage →
  (length data < (length voltage + 1) / 2)%nat →
  voltage_group_to_mu voltage data
  = Raise (IndexError "list assignment index out of range").
Proof.
  intros Hok Hshort.
  destruct (converted_units voltage Hok) as [mus Hmus].
  pose proof (Forall2_length _ _ _ Hmus) as Hn.
  set (slots := length data) in *.
  assert (Hfit : (2 * slots < length voltage)%nat).
  { pose proof (Nat.div_mod_eq (length voltage + 1) 2) as Hdiv.
    pose proof (Nat.mod_upper_bound (length voltage + 1) 2 ltac:(lia)) as Hmod.
    lia. }
  unfold voltage_group_to_mu, Py.range.
  replace (length voltage) with (2 * slots + S (length voltage - 2 * slots - 1))%nat
    by lia.
  rewrite seq_app, for_in_app, Nat.add_0_l.
  assert (Htake : length (take (2 * slots) mus) = (2 * slots)%nat)
    by (rewrite length_take; lia).
  assert (Hhalf : ((2 * slots + 1) / 2 = slots)%nat)
    by (symmetry; apply (Nat.div_unique _ _ _ 1); lia).
  rewrite <- Htake at 1. rewrite pack_prefix.
  - rewrite bind_Ok, Htake, Hhalf. cbn [seq Py.for_in].
    destruct (lookup_lt_is_Some_2 voltage (2 * slots)) as [x Hx]; [lia|].
    pose proof (Forall_lookup_1 _ _ _ _ Hok Hx) as Hm. cbv beta in Hm.
    destruct (voltage_to_mu x) as [m|] eqn:Heq; [|contradiction].
    rewrite (step_even _ _ _ _ _ Hx Heq).
    unfold Py.setitem. rewrite decide_False; [reflexivity|].
    rewrite length_app, length_fmap, pack_group_length, Htake, Hhalf, length_drop.
    fold slots. lia.
  - intros i m Hi. apply lookup_take_Some in Hi as [Hi _].
    destruct (Forall2_lookup_r _ _ _ _ _ Hmus Hi) as (x & Hx & Hm). eauto.
  - rewrite Htake, Hhalf. fold slots. lia.
Qed.

(** X9: with fewer slots than started pairs, and every voltage in range,
    [voltage_group_to_mu] raises [IndexError] at the first sample that has no
    slot. *)
Theorem voltage_group_to_mu_short_list voltage data :
  Forall (λ x, is_Ok (voltage_to_mu x)) voltage →
  (length data < (length voltage + 1) / 2)%nat →
  voltage_group_to_mu voltage data
  = Raise (IndexError "list assignment index out of range").
Proof. exact (voltage_group_to_mu_no_slot voltage data). Qed.

Lemma voltage_group_to_mu_short_list_witness :
  Forall (λ x, is_Ok (voltage_to_mu x)) [1%float; (-1)%float; 0.5%float; 0%float] ∧
  (length [7] < (length [1%float; (-1)%float; 0.5%float; 0%float] + 1) / 2)%nat ∧
  voltage_group_to_mu [1%float; (-1)%float; 0.5%float; 0%float] [7]
  = Raise (IndexError "list assignment index out of range").
Proof.
  assert (Hok : Forall (λ x, is_Ok (voltage_to_mu x))
            [1%float; (-1)%float; 0.5%float; 0%float]) by (repeat constructor).
  assert (Hshort : (length [7]
            < (length [1%float; (-1)%float; 0.5%float; 0%float] + 1) / 2)%nat)
    by (vm_compute; lia).
  split; [exact Hok|]. split; [exact Hshort|].
  exact (voltage_group_to_mu_short_list _ [7] Hok Hshort).
Defined.

Lemma step_bad voltage data i x e :
  voltage !! i = Some x →
  voltage_to_mu x = Raise e →
  voltage_group_step voltage data i = Raise e.
Proof.
  intros Hx Hbad. unfold voltage_group_step.
  rewrite (getitem_Some _ _ _ Hx), bind_Ok, Hbad. reflexivity.
Qed.

Lemma set_group_bad_voltage_run self dac good bad rest e st :
  Forall (λ x, is_Ok (voltage_to_mu x)) good →
  voltage_to_mu bad = Raise e →
  set_group self dac (good ++ bad :: rest) st = (Raise e, st).
Proof.
  intros Hgood Hbad.
  destruct (converted_units good Hgood) as [mus Hmus].
  pose proof (Forall2_length _ _ _ Hmus) as Hn.
  rewrite (set_group_run self dac _ (Raise e) st); [reflexivity|].
  set (voltage := good ++ bad :: rest).
  assert (Hlen : length voltage = (length mus + S (length rest))%nat)
    by (subst voltage; rewrite length_app; simpl; lia).
  unfold voltage_group_to_mu, Py.range at 1. rewrite Hlen at 1.
  rewrite seq_app, for_in_app, Nat.add_0_l. rewrite pack_prefix.
  - rewrite bind_Ok. cbn [seq Py.for_in].
    rewrite (step_bad voltage _ (length mus) bad e); [reflexivity| |exact Hbad].
    subst voltage. rewrite <- Hn. apply list_lookup_middle. reflexivity.
  - intros i m Hi.
    destruct (Forall2_lookup_r _ _ _ _ _ Hmus Hi) as (x & Hx & Hm).
    exists x. split; [|assumption].
    subst voltage. rewrite lookup_app_l; [assumption|].
    apply lookup_lt_Some in Hx. assumption.
  - rewrite zeros_length, Hlen. apply Nat.Div0.div_le_mono. lia.
Qed.

(** X10: [set_group] reports the first voltage that does not convert: if the
    voltages before it are in range, it raises that voltage's error and
    writes nothing, whatever the first channel and whatever follows. *)
Theorem set_group_first_bad_voltage self dac good bad rest e st :
  Forall (λ x, is_Ok (voltage_to_mu x)) good →
  voltage_to_mu bad = Raise e →
  set_group self dac (good ++ bad :: rest) st = (Raise e, st).
Proof. exact (set_group_bad_voltage_run self dac good bad rest e st). Qed.

Lemma set_group_first_bad_voltage_witness :
  Forall (λ x, is_Ok (voltage_to_mu x)) [1%float] ∧
  voltage_to_mu 10 = Raise (ValueError "DAC voltage out of bounds") ∧
  set_group (Build_Fastino 0x300 4 392) 1 ([1%float] ++ 10%float :: [0%float]) (Rtio 0 [])
  = (Raise (ValueError "DAC voltage out of bounds"), Rtio 0 []).
Proof.
  assert (Hgood : Forall (λ x, is_Ok (voltage_to_mu x)) [1%float])
    by (repeat constructor).
  assert (Hbad : voltage_to_mu 10 = Raise (ValueError "DAC voltage out of bounds"))
    by (vm_compute; reflexivity).
  split; [exact Hgood|]. split; [exact Hbad|].
  exact (set_group_first_bad_voltage (Build_Fastino 0x300 4 392) 1 _ _ [0%float] _
           (Rtio 0 []) Hgood Hbad).
Defined.

(** ** Reading a group write back *)

Lemma pack_group_lookup mus :
  Nat.Even (length mus) →
  ∀ j w,
    (Int32.wrap <$> pack_group mus) !! j = Some w →
    ∃ m0 m1,
      mus !! (2 * j)%nat = Some m0 ∧ mus !! (2 * j + 1)%nat = Some m1 ∧
      w = Int32.wrap (group_word m0 m1).
Proof.
  induction mus as [|m|m0 m1 rest IH] using pair_ind; intros Heven j w Hw.
  - discriminate.
  - destruct Heven as [k Hk]. simpl in Hk. lia.
  - destruct j as [|j].
    + injection Hw as <-. exists m0, m1. repeat split; reflexivity.
    + assert (Hrest : Nat.Even (length rest))
        by (destruct Heven as [k Hk]; exists (k - 1)%nat; simpl in Hk; lia).
      destruct (IH Hrest j w Hw) as (n0 & n1 & H0 & H1 & ->).
      exists n0, n1.
      replace (2 * S j)%nat with (S (S (2 * j))) by lia.
      replace (S (S (2 * j)) + 1)%nat with (S (S (2 * j + 1))) by lia.
      repeat split; assumption.
Qed.

(** A list of voltages either converts throughout or has a first voltage
    that does not. *)
Lemma first_bad_voltage voltage :
  Forall (λ x, is_Ok (voltage_to_mu x)) voltage ∨
  ∃ good bad rest e,
    voltage = good ++ bad :: rest ∧
    Forall (λ x, is_Ok (voltage_to_mu x)) good ∧
    voltage_to_mu bad = Raise e.
Proof.
  induction voltage as [|x l IH]; [left; constructor|].
  destruct (voltage_to_mu x) as [m|e] eqn:Hx.
  - destruct IH as [Hall|(good & bad & rest & e & -> & Hgood & Hbad)].
    + left. constructor; [rewrite Hx; exact I|assumption].
    + right. exists (x :: good), bad, rest, e.
      repeat split; [|assumption]. constructor; [rewrite Hx; exact I|assumption].
  - right. exists [], x, l, e. repeat split; [constructor|assumption].
Qed.

Lemma emit_inj ev1 ev2 st : emit ev1 st = emit ev2 st → ev1 = ev2.
Proof.
  unfold emit. intros [= Hev]. apply app_inv_head in Hev. congruence.
Qed.

(** What a successful [set_group] has written: the packed machine units of an
    even number of voltages, all of them in range. *)
Lemma set_group_Ok_inv self dac voltage st t target words :
  set_group self dac voltage st = (Ok (), emit (OutputWide t target words) st) →
  ∃ mus,
    Forall2 (λ x m, voltage_to_mu x = Ok m) voltage mus ∧
    Nat.Even (length voltage) ∧
    words = Int32.wrap <$> pack_group mus ∧
    Z.land dac (width self - 1) = 0 ∧
    t = now_mu st ∧ target = Z.lor (channel self) dac.
Proof.
  intros Hrun.
  destruct (first_bad_voltage voltage)
    as [Hall|(good & bad & rest & e & -> & Hgood & Hbad)];
    [|rewrite (set_group_bad_voltage_run _ _ _ _ _ _ _ Hgood Hbad) in Hrun;
      discriminate].
  destruct (converted_units voltage Hall) as [mus Hmus].
  destruct (Nat.Even_or_Odd (length voltage)) as [Heven|Hodd].
  - exists mus.
    rewrite (set_group_run _ _ _ _ _ (voltage_group_to_mu_even voltage mus Hmus Heven))
      in Hrun.
    unfold set_group_mu in Hrun.
    destruct (Z.eqb_spec (Z.land dac (width self - 1)) 0) as [Ha|Hna];
      simpl in Hrun; [|discriminate].
    unfold rtio_output_wide in Hrun.
    assert (Hev : emit (OutputWide (now_mu st) (Z.lor (channel self) dac)
                          (Int32.wrap <$> pack_group mus)) st
                  = emit (OutputWide t target words) st) by congruence.
    apply emit_inj in Hev. injection Hev as <- <- <-. auto 10.
  - exfalso.
    rewrite (set_group_run self dac voltage
               (Raise (IndexError "list assignment index out of range")) st)
      in Hrun; [discriminate|].
    apply voltage_group_to_mu_no_slot; [assumption|].
    rewrite zeros_length. destruct Hodd as [k ->].
    rewrite odd_half_succ.
    replace ((2 * k + 1) / 2)%nat with k; [lia|].
    apply (Nat.div_unique _ _ _ 1); lia.
Qed.

(** X11: every word of a group write that [set_group] has issued decodes to
    the machine units of two neighbouring voltages: word [j] holds
    [voltage[2j]] in its low 16 bits and [voltage[2j+1]] in its high 16
    bits, and the write has one word per pair. *)
Theorem set_group_words_decode self dac voltage st t target words :
  set_group self dac voltage st = (Ok (), emit (OutputWide t target words) st) →
  length voltage = (2 * length words)%nat ∧
  ∀ j w,
    words !! j = Some w →
    ∃ x0 x1,
      voltage !! (2 * j)%nat = Some x0 ∧
      voltage !! (2 * j + 1)%nat = Some x1 ∧
      voltage_to_mu x0 = Ok (w mod 2 ^ 16) ∧
      voltage_to_mu x1 = Ok ((w mod 2 ^ 32) ≫ 16).
Proof.
  intros Hrun.
  apply set_group_Ok_inv in Hrun as (mus & Hmus & Heven & -> & _).
  pose proof (Forall2_length _ _ _ Hmus) as Hn.
  split.
  - rewrite length_fmap, pack_group_length, <- Hn, even_half_succ by assumption.
    destruct Heven as [k ->]. rewrite (Nat.mul_comm 2 k), Nat.div_mul by lia. lia.
  - intros j w Hw.
    rewrite Hn in Heven.
    destruct (pack_group_lookup mus Heven j w Hw) as (m0 & m1 & H0 & H1 & ->).
    destruct (Forall2_lookup_r _ _ _ _ _ Hmus H0) as (x0 & Hx0 & Hm0).
    destruct (Forall2_lookup_r _ _ _ _ _ Hmus H1) as (x1 & Hx1 & Hm1).
    exists x0, x1.
    destruct (packed_word_halves m0 m1) as (_ & -> & ->);
      eauto using voltage_to_mu_bounds.
Qed.

Lemma set_group_words_decode_witness :
  set_group (Build_Fastino 0x300 4 392) 4
    [1%float; (-1)%float; 0.5%float; 0%float] (Rtio 0 [])
  = (Ok (), emit (OutputWide 0 0x304 [1932758221; -2147449242]) (Rtio 0 [])) ∧
  length [1%float; (-1)%float; 0.5%float; 0%float]
  = Nat.mul 2 (length [1932758221; -2147449242]).
Proof.
  assert (Hrun : set_group (Build_Fastino 0x300 4 392) 4
            [1%float; (-1)%float; 0.5%float; 0%float] (Rtio 0 [])
          = (Ok (), emit (OutputWide 0 0x304 [1932758221; -2147449242]) (Rtio 0 [])))
    by (vm_compute; reflexivity).
  split; [exact Hrun|].
  exact (proj1 (set_group_words_decode _ _ _ _ _ _ _ Hrun)).
Defined.

(** X12: on in-range voltages, an even number of them, [set_group] raises the
    alignment error exactly when [first_channel % width] is not zero, and then
    nothing has been written. *)
Theorem set_group_alignment ref_period channel_base log2_width self :
  __init__ ref_period channel_base log2_width = Ok self →
  ∀ dac voltage mus st,
    Forall2 (λ x m, voltage_to_mu x = Ok m) voltage mus →
    Nat.Even (length voltage) →
    (set_group self dac voltage st
     = (Raise (ValueError "Group index LSBs must be zero"), st)
     ↔ dac mod width self ≠ 0).
Proof.
  intros Hinit dac voltage mus st Hmus Heven.
  pose proof (init_fields _ _ _ _ Hinit) as (Hpos & _ & Hw).
  rewrite (set_group_run _ _ _ _ _ (voltage_group_to_mu_even voltage mus Hmus Heven)).
  unfold set_group_mu. rewrite Hw, land_width_mod by assumption.
  destruct (Z.eqb_spec (dac mod 2 ^ log2_width) 0) as [Heq|Hne]; simpl.
  - split; [discriminate|contradiction].
  - split; trivial.
Qed.

Lemma set_group_alignment_witness :
  let self := {| channel := 0x300; width := 4; t_frame := 392 |} in
  __init__ ns 3 2 = Ok self ∧
  Forall2 (λ x m, voltage_to_mu x = Ok m) [1%float; (-1)%float] [36045; 29491] ∧
  Nat.Even (length [1%float; (-1)%float]) ∧
  (set_group self 6 [1%float; (-1)%float] (Rtio 0 [])
   = (Raise (ValueError "Group index LSBs must be zero"), Rtio 0 [])
   ↔ 6 mod width self ≠ 0).
Proof.
  intros self.
  assert (Hinit : __init__ ns 3 2 = Ok self) by (vm_compute; reflexivity).
  assert (Hmus : Forall2 (λ x m, voltage_to_mu x = Ok m)
            [1%float; (-1)%float] [36045; 29491])
    by (repeat constructor; vm_compute; reflexivity).
  assert (Heven : Nat.Even (length [1%float; (-1)%float]))
    by (exists 1%nat; reflexivity).
  split; [exact Hinit|]. split; [exact Hmus|]. split; [exact Heven|].
  exact (set_group_alignment ns 3 2 self Hinit 6 _ _ (Rtio 0 []) Hmus Heven).
Defined.

(** ** Single samples, addresses and configuration bits *)

(** X13: [set_dac] either raises and leaves the timeline as it was, or writes
    one word to [channel | dac], and that word is a 16-bit sample: the machine
    unit of the voltage, between 0 and 0xffff. *)
Theorem set_dac_sample self dac voltage st :
  all_or_nothing st
    (λ ev, ∃ data,
       voltage_to_mu voltage = Ok data ∧
       0 <= data <= 0xffff ∧
       ev = Output (now_mu st) (Z.lor (channel self) dac) data)
    (set_dac self dac voltage st).
Proof.
  unfold set_dac, lift, mbind, kernel_bind.
  destruct (voltage_to_mu voltage) as [data|e] eqn:Hmu; simpl; [|reflexivity].
  eexists. split; [|reflexivity].
  exists data. split; [reflexivity|]. split; [|reflexivity].
  exact (voltage_to_mu_bounds voltage data Hmu).
Qed.

(** X14: on a device built for [channel_base], the target of a write to an
    offset below 256 splits back into its two parts: the low byte is the
    offset and the bits above it are [channel_base]. *)
Theorem write_address_round_trip ref_period channel_base log2_width self :
  __init__ ref_period channel_base log2_width = Ok self →
  ∀ addr data st,
    0 <= addr < 256 →
    ∃ target,
      write self addr data st = (Ok (), emit (Output (now_mu st) target data) st) ∧
      target mod 256 = addr ∧
      target ≫ 8 = channel_base.
Proof.
  intros Hinit addr data st Haddr.
  apply init_fields in Hinit as (_ & Hch & _).
  exists (Z.lor (channel self) addr). split; [reflexivity|].
  rewrite Hch, Z.lor_comm.
  rewrite lor_shiftl_add by (change (2 ^ 8) with 256; lia).
  change (2 ^ 8) with 256. split.
  - rewrite Z.mod_add by lia. apply Z.mod_small. assumption.
  - rewrite Z.shiftr_div_pow2 by lia. change (2 ^ 8) with 256.
    rewrite Z.div_add by lia. rewrite Z.div_small by assumption. reflexivity.
Qed.

Lemma write_address_round_trip_witness :
  let self := {| channel := 0x300; width := 1; t_frame := 392 |} in
  __init__ ns 3 0 = Ok self ∧
  0 <= 0x26 < 256 ∧
  ∃ target,
    write self 0x26 7 (Rtio 0 []) = (Ok (), emit (Output 0 target 7) (Rtio 0 [])) ∧
    target mod 256 = 0x26 ∧
    target ≫ 8 = 3.
Proof.
  intros self.
  assert (Hinit : __init__ ns 3 0 = Ok self) by (vm_compute; reflexivity).
  assert (Haddr : 0 <= 0x26 < 256) by lia.
  split; [exact Hinit|]. split; [exact Haddr|].
  exact (write_address_round_trip ns 3 0 self Hinit 0x26 7 (Rtio 0 []) Haddr).
Defined.

(** X15: the word [set_cfg] writes to offset 0x22 uses four bits, and each
    flag can be read back from its bit: bit 0 is [reset], bit 1
    [afe_power_down], bit 2 [dac_clr] and bit 3 [clr_err]. *)
Theorem set_cfg_round_trip self reset afe_power_down dac_clr clr_err st :
  ∃ word,
    set_cfg self reset afe_power_down dac_clr clr_err st
    = (Ok (), emit (Output (now_mu st) (Z.lor (channel self) 0x22) word) st) ∧
    0 <= word < 16 ∧
    Z.testbit word 0 = reset ∧
    Z.testbit word 1 = afe_power_down ∧
    Z.testbit word 2 = dac_clr ∧
    Z.testbit word 3 = clr_err.
Proof.
  eexists. split; [reflexivity|].
  destruct reset, afe_power_down, dac_clr, clr_err; vm_compute;
    repeat split; congruence.
Qed.

(** ** Initialisation *)

Lemma wrap64_id x : - 2 ^ 63 <= x < 2 ^ 63 → Int64.wrap x = x.
Proof. intros Hx. unfold Int64.wrap. rewrite Z.mod_small; lia. Qed.

Lemma stage_cic_one self st :
  stage_cic self 1 st
  = (Ok 1, emit (Output (now_mu st) (Z.lor (channel self) 0x26) 0) st).
Proof.
  pose proof (stage_cic_run self 1 st ltac:(lia)) as Hrun.
  change 1 with (2 ^ 0) in Hrun at 1.
  rewrite (stage_cic_locals_pow2 0) in Hrun by lia. exact Hrun.
Qed.

(** X16: [init] never raises.  Started at cursor [t] with frames of [T]
    machine units, it issues seven register writes, one per frame and in this
    order: cfg with only [clr_err] set, cfg cleared, continuous mask 0, the
    unit-rate CIC configuration, apply-CIC on all 32 channels, LEDs off, hold
    mask 0; it leaves the cursor seven frames later and the earlier events in
    place. *)
Theorem init_run self st :
  0 <= t_frame self →
  - 2 ^ 63 <= now_mu st →
  now_mu st + 7 * t_frame self < 2 ^ 63 →
  let t := now_mu st in
  let T := t_frame self in
  let reg offset := Z.lor (channel self) offset in
  init self st
  = (Ok (),
     {| now_mu := t + 7 * T;
        events := events st ++
          [Output t (reg 0x22) 8;
           Output (t + T) (reg 0x22) 0;
           Output (t + 2 * T) (reg 0x25) 0;
           Output (t + 3 * T) (reg 0x26) 0;
           Output (t + 4 * T) (reg 0x27) (-1);
           Output (t + 5 * T) (reg 0x23) 0;
           Output (t + 6 * T) (reg 0x21) 0] |}) ∧
  ∀ i, 0 <= i < 32 → Z.testbit (-1) i = true.
Proof.
  destruct st as [t ev]. cbn [now_mu events]. cbv zeta.
  intros HT Hlow Hhigh. set (T := t_frame self) in *.
  split; [|intros i Hi; apply Z.bits_m1; lia].
  unfold init, mbind, kernel_bind.
  unfold set_cfg, set_continuous, apply_cic, set_leds, set_hold, write,
    rtio_output, delay_mu.
  cbv beta iota. rewrite stage_cic_one.
  cbv beta iota delta [emit now_mu events]. fold T.
  rewrite (wrap64_id (t + T)) by lia.
  rewrite (wrap64_id (t + T + T)) by lia.
  rewrite (wrap64_id (t + T + T + T)) by lia.
  rewrite (wrap64_id (t + T + T + T + T)) by lia.
  rewrite (wrap64_id (t + T + T + T + T + T)) by lia.
  rewrite (wrap64_id (t + T + T + T + T + T + T)) by lia.
  rewrite (wrap64_id (t + T + T + T + T + T + T + T)) by lia.
  rewrite <- !app_assoc. cbn [app].
  f_equal. f_equal; [lia|].
  f_equal. repeat (f_equal; try lia).
Qed.

Lemma init_run_witness :
  0 <= t_frame (Build_Fastino 0x300 1 392) ∧
  - 2 ^ 63 <= now_mu (Rtio 100 []) ∧
  now_mu (Rtio 100 []) + 7 * t_frame (Build_Fastino 0x300 1 392) < 2 ^ 63 ∧
  init (Build_Fastino 0x300 1 392) (Rtio 100 [])
  = (Ok (), Rtio 2844
       [Output 100 0x322 8; Output 492 0x322 0; Output 884 0x325 0;
        Output 1276 0x326 0; Output 1668 0x327 (-1); Output 2060 0x323 0;
        Output 2452 0x321 0]).
Proof.
  assert (HT : 0 <= t_frame (Build_Fastino 0x300 1 392)) by (simpl; lia).
  assert (Hlow : - 2 ^ 63 <= now_mu (Rtio 100 [])) by (simpl; lia).
  assert (Hhigh : now_mu (Rtio 100 []) + 7 * t_frame (Build_Fastino 0x300 1 392)
                  < 2 ^ 63) by (simpl; lia).
  split; [exact HT|]. split; [exact Hlow|]. split; [exact Hhigh|].
  exact (proj1 (init_run (Build_Fastino 0x300 1 392) (Rtio 100 []) HT Hlow Hhigh)).
Defined.

(** ** The cursor *)

Lemma one_write_emit st ev : at_most_one_write st (emit ev st).
Proof. split; [reflexivity|]. right. exists ev. reflexivity. Qed.

Lemma one_write_none st : at_most_one_write st st.
Proof. split; [reflexivity|]. left. reflexivity. Qed.

(** X17: no register operation moves the cursor or touches an event already
    submitted: whether it returns or raises, each of them leaves the timeline
    with the same cursor and at most one event appended ([read] with none).
    Only [init] and explicit delays advance the schedule. *)
Theorem operations_keep_cursor self st :
  (∀ addr data, at_most_one_write st (write self addr data st).2) ∧
  (∀ addr, (read addr st).2 = st) ∧
  (∀ dac data, at_most_one_write st (set_dac_mu self dac data st).2) ∧
  (∀ dac data, at_most_one_write st (set_group_mu self dac data st).2) ∧
  (∀ dac voltage, at_most_one_write st (set_dac self dac voltage st).2) ∧
  (∀ dac voltage, at_most_one_write st (set_group self dac voltage st).2) ∧
  (∀ mask, at_most_one_write st (update self mask st).2) ∧
  (∀ mask, at_most_one_write st (set_hold self mask st).2) ∧
  (∀ reset afe_power_down dac_clr clr_err,
     at_most_one_write st (set_cfg self reset afe_power_down dac_clr clr_err st).2) ∧
  (∀ leds, at_most_one_write st (set_leds self leds st).2) ∧
  (∀ mask, at_most_one_write st (set_continuous self mask st).2) ∧
  (∀ rate_mantissa rate_exponent gain_exponent,
     at_most_one_write st
       (stage_cic_mu self rate_mantissa rate_exponent gain_exponent st).2) ∧
  (∀ rate, at_most_one_write st (stage_cic self rate st).2) ∧
  (∀ mask, at_most_one_write st (apply_cic self mask st).2).
Proof.
  assert (Hgroup_mu : ∀ dac data,
            at_most_one_write st (set_group_mu self dac data st).2).
  { intros dac data. unfold set_group_mu.
    destruct (negb _); [apply one_write_none|apply one_write_emit]. }
  repeat match goal with |- _ ∧ _ => split end;
    intros; try reflexivity; try apply one_write_emit; try apply Hgroup_mu.
  - unfold set_dac, lift, mbind, kernel_bind.
    destruct (voltage_to_mu voltage); [apply one_write_emit|apply one_write_none].
  - rewrite (set_group_run self dac voltage _ st eq_refl).
    destruct (voltage_group_to_mu _ _); [apply Hgroup_mu|apply one_write_none].
  - destruct (decide (0 <= rate_mantissa < 64 ∧ 0 <= rate_exponent < 16 ∧
                      0 <= gain_exponent < 64)) as [Hin|Hout].
    + rewrite stage_cic_mu_run by lia. apply one_write_emit.
    + destruct (stage_cic_mu_rejects self _ _ _ st Hout) as [msg ->].
      apply one_write_none.
  - destruct (decide (1 <= rate <= 65536)) as [Hin|Hout].
    + pose proof (stage_cic_run self rate st Hin) as Hrun.
      destruct (stage_cic_locals rate) as [[m e] g]. rewrite Hrun.
      apply one_write_emit.
    + rewrite stage_cic_rejects by lia. apply one_write_none.
Qed.
